(** * Tracer: ray bundles, flat surfaces and axis rotations

    A shallow embedding of three modules of the Tracer ray-tracing package:

    - [tracer/ray_bundle.py]   (class [RayBundle]),
    - [tracer/flat_surface.py] (the [FlatGeometryManager] hierarchy),
    - [spatial_geometry.py]    ([general_axis_rotation], [generate_transform]).

    Conventions.

    - A NumPy array of shape [(n,)] is a [list]; an array of shape [(3,n)] is
      the list of its [n] columns, each column a triple.  [hstack] of such
      arrays is list concatenation and [a[:, idxs]] picks columns.
    - Array cells are binary64 numbers ([float] of the kernel), so [inf],
      [nan], the comparisons and the element-wise operations behave as they
      do in NumPy.  What NumPy and Python delegate to BLAS, LAPACK and the
      C library ([N.dot], [N.linalg.inv], [x**2] on a Python float,
      [math.sin], [math.cos]) is a parameter of the embedding: its last bit
      depends on the library in use.
    - The rotation helper is written once over a record of scalar
      operations; it is read in binary64, as the code runs, and in exact
      real arithmetic, where its algebraic identities live.
    - A Python exception is a [Raise] in the [result] monad; the attributes
      that the managers create and delete at run time are optional fields of
      an explicit state record. *)

From Stdlib Require Import List ZArith QArith Lia Bool Floats Reals Lra RNsatz.
Import ListNotations.
Close Scope Q_scope.

Set Implicit Arguments.

(* ===================================================================== *)
(** * Part I.  Definitions                                                *)
(* ===================================================================== *)

(** ** The fragment of Python and NumPy the sources rely on *)

Module Numpy.

Inductive exn : Set :=
| AttributeError | KeyError | IndexError | ValueError | LinAlgError
| OverflowError.

Inductive result (A : Type) : Type :=
| Ok (a : A)
| Raise (e : exn).
Arguments Ok {A} a.
Arguments Raise {A} e.

Definition bind {A B} (c : result A) (k : A -> result B) : result B :=
  match c with
  | Ok a => k a
  | Raise e => Raise e
  end.

Fixpoint mapM {A B} (f : A -> result B) (l : list A) : result (list B) :=
  match l with
  | [] => Ok []
  | a :: t =>
      bind (f a) (fun b => bind (mapM f t) (fun bs => Ok (b :: bs)))
  end.

(** An integer index into an axis of length [n]: negative indices count
    from the end, anything outside [-n .. n-1] is an [IndexError]. *)
Definition norm_index (n : nat) (i : Z) : result nat :=
  if ((0 <=? i) && (i <? Z.of_nat n))%Z then Ok (Z.to_nat i)
  else if ((- Z.of_nat n <=? i) && (i <? 0))%Z
       then Ok (Z.to_nat (i + Z.of_nat n))
       else Raise IndexError.

Definition item {A} (l : list A) (i : Z) : result A :=
  bind (norm_index (length l) i)
       (fun j => match nth_error l j with
                 | Some a => Ok a
                 | None => Raise IndexError
                 end).

(** [a[..., idxs]] for an integer index array [idxs]. *)
Definition take {A} (l : list A) (idxs : list Z) : result (list A) :=
  mapM (item l) idxs.

(** Selectors: the full slice [N.s_[:]] or an integer index array. *)
Inductive selector : Type :=
| SelAll
| SelIdx (idxs : list Z).

Definition select {A} (l : list A) (s : selector) : result (list A) :=
  match s with
  | SelAll => Ok l
  | SelIdx idxs => take l idxs
  end.

(** [N.arange(n)] *)
Definition arange (n : nat) : list Z := map Z.of_nat (seq 0 n).

(** [a[mask]] for a boolean mask of the same length. *)
Fixpoint mask_select {A} (l : list A) (m : list bool) : list A :=
  match l, m with
  | a :: l', b :: m' =>
      if b then a :: mask_select l' m' else mask_select l' m'
  | _, _ => []
  end.

(** [a[mask] = vals]: the values are written, in order, into the cells
    where the mask holds. *)
Fixpoint mask_assign {A} (l : list A) (m : list bool) (vals : list A)
  : list A :=
  match l, m with
  | a :: l', true :: m' =>
      match vals with
      | v :: vals' => v :: mask_assign l' m' vals'
      | [] => a :: mask_assign l' m' []
      end
  | a :: l', false :: m' => a :: mask_assign l' m' vals
  | _, _ => l
  end.

(** [a[mask] = c] for a scalar [c]. *)
Fixpoint mask_fill {A} (l : list A) (m : list bool) (c : A) : list A :=
  match l, m with
  | a :: l', b :: m' => (if b then c else a) :: mask_fill l' m' c
  | _, _ => l
  end.

(** [N.nonzero(mask)[0]]: the positions at which the mask holds. *)
Fixpoint nonzero_from (pos : nat) (m : list bool) : list nat :=
  match m with
  | [] => []
  | b :: m' =>
      if b then pos :: nonzero_from (S pos) m' else nonzero_from (S pos) m'
  end.

Definition nonzero (m : list bool) : list nat := nonzero_from 0 m.

(** Writing one cell; a position past the end leaves the list alone (the
    callers below only pass positions produced by [nonzero]). *)
Fixpoint set_nth {A} (l : list A) (j : nat) (v : A) : list A :=
  match l, j with
  | [], _ => []
  | _ :: l', O => v :: l'
  | a :: l', S j' => a :: set_nth l' j' v
  end.

(** [a[:, js] = vals] for an index array of positions. *)
Fixpoint assign_at {A} (l : list A) (js : list nat) (vals : list A)
  : list A :=
  match js, vals with
  | j :: js', v :: vals' => assign_at (set_nth l j v) js' vals'
  | _, _ => l
  end.

(** [N.delete(a, obj)] for an integer index array [obj]: the cells whose
    position is named by [obj] are left out. *)
Fixpoint drop_positions {A} (js : list nat) (pos : nat) (l : list A)
  : list A :=
  match l with
  | [] => []
  | a :: l' =>
      if existsb (Nat.eqb pos) js then drop_positions js (S pos) l'
      else a :: drop_positions js (S pos) l'
  end.

Definition delete {A} (l : list A) (obj : list Z) : result (list A) :=
  bind (mapM (norm_index (length l)) obj)
       (fun js => Ok (drop_positions js 0 l)).

End Numpy.

Import Numpy.

Notation "x <- c ;; k" := (bind c (fun x => k))
  (at level 61, c at next level, right associativity).

Definition vec3 (A : Type) : Type := (A * A * A)%type.
Definition vec4 (A : Type) : Type := (A * A * A * A)%type.

(** A frame is a 4-by-4 homogeneous matrix, stored by rows. *)
Definition frame : Type := vec4 (vec4 float).

(** ** Library routines behind NumPy and Python *)

Module Lib.

(** - [dot_rows a n]: one entry of [N.dot(d.T, n)], the row [a] of [d.T]
      with the vector [n];
    - [dot_cols n a]: one entry of [N.dot(n, v)], the vector [n] with the
      column [a] of [v];
    - [dot_hom r a]: one entry of [N.dot(M, P)] for a 4-by-4 [M], its row
      [r] with the column [a] of [P];
    - [inv]: [N.linalg.inv], which raises [LinAlgError] on a singular
      matrix;
    - [square]: [x**2] on a Python float, which raises [OverflowError] when
      the result is out of range. *)
Record t : Type := mk {
  dot_rows : vec3 float -> vec3 float -> float;
  dot_cols : vec3 float -> vec3 float -> float;
  dot_hom  : vec4 float -> vec4 float -> float;
  inv      : frame -> result frame;
  square   : float -> result float
}.

End Lib.

(** ** tracer/ray_bundle.py *)

Module RayBundle.

(** The five canonical attributes.  An attribute that was never set does
    not exist on the Python object ([hasattr] is false): it is [None]
    here.  [_vertices] and [_directions] are 3-by-n arrays. *)
Record t : Type := mk {
  _vertices   : option (list (vec3 float));
  _directions : option (list (vec3 float));
  _energy     : option (list float);
  _parents    : option (list Z);
  _ref_index  : option (list float)
}.

(** [RayBundle()] *)
Definition empty : t := mk None None None None None.

Definition hasattr {A} (attr : option A) : bool :=
  match attr with Some _ => true | None => false end.

(** The generated getters read [self.__dict__[attr]]. *)
Definition getter {A} (attr : option A) : result A :=
  match attr with
  | Some a => Ok a
  | None => Raise KeyError
  end.

Definition get_vertices   (b : t) := getter (_vertices b).
Definition get_directions (b : t) := getter (_directions b).
Definition get_energy     (b : t) := getter (_energy b).
Definition get_parents    (b : t) := getter (_parents b).
Definition get_ref_index  (b : t) := getter (_ref_index b).

(** [self._vertices.shape[1]] *)
Definition get_num_rays (b : t) : result nat :=
  match _vertices b with
  | Some v => Ok (length v)
  | None => Raise AttributeError
  end.

(** One of the five [if x is None and hasattr(self, '_x'): x = ...[selector]]
    statements of [inherit]. *)
Definition inherit_attr {A} (override own : option (list A)) (s : selector)
  : result (option (list A)) :=
  match override, own with
  | Some o, _ => Ok (Some o)
  | None, Some a => x <- select a s ;; Ok (Some x)
  | None, None => Ok None
  end.

Definition inherit (b : t) (s : selector)
    (vertices direction : option (list (vec3 float)))
    (energy : option (list float)) (parents : option (list Z))
    (ref_index : option (list float)) : result t :=
  vertices  <- inherit_attr vertices  (_vertices b)   s ;;
  direction <- inherit_attr direction (_directions b) s ;;
  energy    <- inherit_attr energy    (_energy b)     s ;;
  parents   <- inherit_attr parents   (_parents b)    s ;;
  ref_index <- inherit_attr ref_index (_ref_index b)  s ;;
  Ok (mk vertices direction energy parents ref_index).

(** One of the five [if hasattr(self, '_x') and hasattr(added, '_x')]
    statements of [__add__]. *)
Definition add_attr {A} (mine theirs : option (list A)) : option (list A) :=
  match mine, theirs with
  | Some a, Some b => Some (a ++ b)
  | _, _ => None
  end.

(** [__add__] *)
Definition add (self added : t) : t :=
  mk (add_attr (_vertices self)   (_vertices added))
     (add_attr (_directions self) (_directions added))
     (add_attr (_energy self)     (_energy added))
     (add_attr (_parents self)    (_parents added))
     (add_attr (_ref_index self)  (_ref_index added)).

Definition empty_bund : t :=
  mk (Some []) (Some []) (Some []) (Some []) (Some []).

Definition delete_rays (b : t) (sel : list Z) : result t :=
  n <- get_num_rays b ;;
  inherit_select <- delete (arange n) sel ;;
  inherit b (SelIdx inherit_select) None None None None None.

End RayBundle.

(** ** tracer/flat_surface.py *)

Module Vec.
Local Open Scope float_scope.

(** Binary64 nearest to the decimal literal [1e-10]. *)
Definition eps : float := 0x1.b7cdfd9d7bdbbp-34.

(** [frame[:3,2]]: the local Z axis in world coordinates. *)
Definition normal_of (f : frame) : vec3 float :=
  let '(r0, r1, r2, _) := f in
  let '(_, _, a, _) := r0 in
  let '(_, _, b, _) := r1 in
  let '(_, _, c, _) := r2 in
  (a, b, c).

(** [frame[:3,3]]: the local origin in world coordinates. *)
Definition origin_of (f : frame) : vec3 float :=
  let '(r0, r1, r2, _) := f in
  let '(_, _, _, a) := r0 in
  let '(_, _, _, b) := r1 in
  let '(_, _, _, c) := r2 in
  (a, b, c).

Definition sub3 (a b : vec3 float) : vec3 float :=
  let '(a0, a1, a2) := a in
  let '(b0, b1, b2) := b in
  (a0 - b0, a1 - b1, a2 - b2).

Definition add3 (a b : vec3 float) : vec3 float :=
  let '(a0, a1, a2) := a in
  let '(b0, b1, b2) := b in
  (a0 + b0, a1 + b1, a2 + b2).

(** One column of [p[None,:]*d]. *)
Definition scale3 (p : float) (d : vec3 float) : vec3 float :=
  let '(d0, d1, d2) := d in (p * d0, p * d1, p * d2).

(** One column of [norms[:, js] * -1]. *)
Definition times_minus_one (d : vec3 float) : vec3 float :=
  let '(d0, d1, d2) := d in (d0 * (-1), d1 * (-1), d2 * (-1)).

(** One column of [N.dot(M, N.vstack((g, ones)))]. *)
Definition apply4 (L : Lib.t) (m : frame) (g : vec3 float) : vec4 float :=
  let '(r0, r1, r2, r3) := m in
  let '(g0, g1, g2) := g in
  let h := (g0, g1, g2, 1) in
  (Lib.dot_hom L r0 h, Lib.dot_hom L r1 h,
   Lib.dot_hom L r2 h, Lib.dot_hom L r3 h).

Fixpoint zip_with {A B C} (f : A -> B -> C) (l : list A) (l' : list B)
  : list C :=
  match l, l' with
  | a :: t, b :: t' => f a b :: zip_with f t t'
  | _, _ => []
  end.

(** [v + p[None,:]*d]; wherever it is called the three arrays have one
    column per ray. *)
Definition points (v : list (vec3 float)) (p : list float)
    (d : list (vec3 float)) : list (vec3 float) :=
  zip_with add3 v (zip_with scale3 p d).

End Vec.

Module GeometryManager.

(** [_backside] is a boolean array after [find_intersections] and an index
    array after [select_rays]. *)
Inductive backside : Type :=
| BMask (m : list bool)
| BIdx (js : list nat).

(** The attributes a manager creates and deletes while it works. *)
Record state : Type := mk {
  _working_frame  : option frame;
  _working_bundle : option RayBundle.t;
  _params         : option (list float);
  _backside       : option backside;
  _idxs           : option (list Z);
  _global         : option (list (vec3 float));
  _local          : option (list (vec4 float))
}.

Definition fresh : state := mk None None None None None None None.

(** Methods run on a manager: they return a value and the manager's new
    attributes, or raise. *)
Definition M (A : Type) : Type := state -> result (A * state).

Definition attr {A} (a : option A) : result A :=
  match a with
  | Some x => Ok x
  | None => Raise AttributeError
  end.

(** Modelled from the spec: [geometry_manager.py] is not among the sources;
    the base [find_intersections] records the working frame and the
    working bundle. *)
Definition find_intersections (f : frame) (ray_bundle : RayBundle.t)
  : M unit :=
  fun self =>
    Ok (tt, mk (Some f) (Some ray_bundle) (_params self) (_backside self)
               (_idxs self) (_global self) (_local self)).

End GeometryManager.

Module FlatGeometryManager.
Import GeometryManager Vec.
Local Open Scope float_scope.

Definition find_intersections (L : Lib.t) (f : frame)
    (ray_bundle : RayBundle.t) : M (list float) :=
  fun self =>
    r <- GeometryManager.find_intersections f ray_bundle self ;;
    let self := snd r in
    d <- RayBundle.get_directions ray_bundle ;;
    vs <- RayBundle.get_vertices ray_bundle ;;
    let v := map (fun c => sub3 c (origin_of f)) vs in
    n <- RayBundle.get_num_rays ray_bundle ;;
    (* Vet out parallel rays *)
    let dt := map (fun c => Lib.dot_rows L c (normal_of f)) d in
    let unparallel := map (fun x => eps <? abs x) dt in
    let params := repeat infinity n in
    (* a boolean index must be as long as the axis it indexes *)
    if negb (Nat.eqb (length unparallel) n) then Raise IndexError else
    let vt :=
      map (fun c => Lib.dot_cols L (normal_of f) c)
          (mask_select v unparallel) in
    let params :=
      mask_assign params unparallel
        (zip_with (fun a b => - a / b) vt (mask_select dt unparallel)) in
    (* Takes into account a negative depth *)
    let negative := map (fun p => p <? 0) params in
    let params := mask_fill params negative infinity in
    Ok (params,
        mk (_working_frame self) (_working_bundle self) (Some params)
           (Some (BMask (map (fun x => 0 <? x) dt)))
           (_idxs self) (_global self) (_local self)).

(** [N.nonzero(self._backside[idxs])[0]] *)
Definition narrow_backside (b : backside) (idxs : list Z)
  : result (list nat) :=
  match b with
  | BMask m => x <- take m idxs ;; Ok (nonzero x)
  | BIdx js =>
      x <- take js idxs ;;
      Ok (nonzero (map (fun j => negb (Nat.eqb j 0)) x))
  end.

Definition select_rays (idxs : list Z) : M unit :=
  fun self =>
    b <- attr (_backside self) ;;
    b <- narrow_backside b idxs ;;
    wb <- attr (_working_bundle self) ;;
    vs <- RayBundle.get_vertices wb ;;
    v <- take vs idxs ;;
    ds <- RayBundle.get_directions wb ;;
    d <- take ds idxs ;;
    ps <- attr (_params self) ;;
    p <- take ps idxs ;;
    Ok (tt,
        mk (_working_frame self) (_working_bundle self) None
           (Some (BIdx b)) (Some idxs) (Some (points v p d))
           (_local self)).

(** The columns that [norms[:, self._backside]] addresses. *)
Definition backside_positions (b : backside) (width : nat)
  : result (list nat) :=
  match b with
  | BIdx js =>
      if forallb (fun j => Nat.ltb j width) js then Ok js
      else Raise IndexError
  | BMask m =>
      if Nat.eqb (length m) width then Ok (nonzero m) else Raise IndexError
  end.

Definition get_normals : M (list (vec3 float)) :=
  fun self =>
    f <- attr (_working_frame self) ;;
    idxs <- attr (_idxs self) ;;
    let norms := repeat (normal_of f) (length idxs) in
    b <- attr (_backside self) ;;
    js <- backside_positions b (length norms) ;;
    let flipped :=
      map (fun j => times_minus_one (nth j norms (normal_of f))) js in
    Ok (assign_at norms js flipped, self).

Definition get_intersection_points_global : M (list (vec3 float)) :=
  fun self => g <- attr (_global self) ;; Ok (g, self).

End FlatGeometryManager.

Module FiniteFlatGM.
Import GeometryManager Vec.
Local Open Scope float_scope.

Definition find_intersections (L : Lib.t) (f : frame)
    (ray_bundle : RayBundle.t) : M (list float) :=
  fun self =>
    r <- FlatGeometryManager.find_intersections L f ray_bundle self ;;
    let '(ray_prms, self) := r in
    wb <- attr (_working_bundle self) ;;
    v <- RayBundle.get_vertices wb ;;
    d <- RayBundle.get_directions wb ;;
    p <- attr (_params self) ;;
    (* Global coordinates on the surface *)
    let global := points v p d in
    wf <- attr (_working_frame self) ;;
    m <- Lib.inv L wf ;;
    let local := map (apply4 L m) global in
    Ok (ray_prms,
        mk (_working_frame self) (_working_bundle self) None
           (_backside self) (_idxs self) (Some global) (Some local)).

Definition select_rays (idxs : list Z) : M unit :=
  fun self =>
    b <- attr (_backside self) ;;
    b <- FlatGeometryManager.narrow_backside b idxs ;;
    g <- attr (_global self) ;;
    g <- take g idxs ;;
    Ok (tt,
        mk (_working_frame self) (_working_bundle self) (_params self)
           (Some (BIdx b)) (Some idxs) (Some g) (_local self)).

End FiniteFlatGM.

Module RectPlateGM.
Import GeometryManager Vec.
Local Open Scope float_scope.

(** A constructed plate: its half extents and its working attributes. *)
Record t : Type := mk_plate {
  _half_dims : float * float;
  gm : state
}.

(** [__init__] *)
Definition init (width height : float) : result t :=
  if width <=? 0 then Raise ValueError
  else if height <=? 0 then Raise ValueError
  else Ok (mk_plate (width / 2, height / 2) fresh).

(** [N.any(abs(self._local[:2]) > self._half_dims, axis=0)] for one ray. *)
Definition outside (half_dims : float * float) (l : vec4 float) : bool :=
  let '(x, y, _, _) := l in
  (fst half_dims <? abs x) || (snd half_dims <? abs y).

Definition find_intersections (L : Lib.t) (half_dims : float * float)
    (f : frame) (ray_bundle : RayBundle.t) : M (list float) :=
  fun self =>
    r <- FiniteFlatGM.find_intersections L f ray_bundle self ;;
    let '(ray_prms, self) := r in
    local <- attr (_local self) ;;
    if negb (Nat.eqb (length local) (length ray_prms))
    then Raise IndexError else
    let ray_prms :=
      mask_fill ray_prms (map (outside half_dims) local) infinity in
    Ok (ray_prms,
        mk (_working_frame self) (_working_bundle self) (_params self)
           (_backside self) (_idxs self) (_global self) None).

End RectPlateGM.

Module RoundPlateGM.
Import GeometryManager Vec.
Local Open Scope float_scope.

Record t : Type := mk_plate {
  _R : float;
  gm : state
}.

(** [__init__] *)
Definition init (R : float) : result t :=
  if R <=? 0 then Raise ValueError
  else Ok (mk_plate R fresh).

(** [N.sum(self._local[:2]**2, axis=0) > self._R**2] for one ray, given the
    value [R2] of [self._R**2]; on an array [**2] is the element-wise
    square. *)
Definition outside (R2 : float) (l : vec4 float) : bool :=
  let '(x, y, _, _) := l in
  R2 <? x * x + y * y.

Definition find_intersections (L : Lib.t) (R : float)
    (f : frame) (ray_bundle : RayBundle.t) : M (list float) :=
  fun self =>
    r <- FiniteFlatGM.find_intersections L f ray_bundle self ;;
    let '(ray_prms, self) := r in
    local <- attr (_local self) ;;
    R2 <- Lib.square L R ;;
    if negb (Nat.eqb (length local) (length ray_prms))
    then Raise IndexError else
    let ray_prms := mask_fill ray_prms (map (outside R2) local) infinity in
    Ok (ray_prms,
        mk (_working_frame self) (_working_bundle self) (_params self)
           (_backside self) (_idxs self) (_global self) None).

End RoundPlateGM.

(** ** spatial_geometry.py *)

Module SpatialGeometry.

(** The scalar operations the module uses.  [sin] and [cos] are
    [math.sin] and [math.cos], which raise [ValueError] on an infinite
    argument. *)
Record ops (T : Type) : Type := mk_ops {
  zero : T;
  one  : T;
  add  : T -> T -> T;
  sub  : T -> T -> T;
  mul  : T -> T -> T;
  opp  : T -> T;
  sin  : T -> result T;
  cos  : T -> result T
}.
Arguments zero {T} o.
Arguments one {T} o.
Arguments add {T} o.
Arguments sub {T} o.
Arguments mul {T} o.
Arguments opp {T} o.
Arguments sin {T} o.
Arguments cos {T} o.

Section Over.

Variable T : Type.
Variable o : ops T.

Definition mat3 : Type := vec3 (vec3 T).
Definition mat4 : Type := vec4 (vec4 T).

(** [N.multiply.outer(a, b)] *)
Definition outer (a b : vec3 T) : mat3 :=
  let '(a0, a1, a2) := a in
  let '(b0, b1, b2) := b in
  ((mul o a0 b0, mul o a0 b1, mul o a0 b2),
   (mul o a1 b0, mul o a1 b1, mul o a1 b2),
   (mul o a2 b0, mul o a2 b1, mul o a2 b2)).

(** [N.eye(3)] *)
Definition eye3 : mat3 :=
  ((one o, zero o, zero o), (zero o, one o, zero o), (zero o, zero o, one o)).

Definition row_scale (r : vec3 T) (k : T) : vec3 T :=
  let '(a, b, c) := r in (mul o a k, mul o b k, mul o c k).

Definition row_add (r r' : vec3 T) : vec3 T :=
  let '(a, b, c) := r in
  let '(a', b', c') := r' in (add o a a', add o b b', add o c c').

(** [m * k] for a scalar [k] *)
Definition mscale (m : mat3) (k : T) : mat3 :=
  let '(r0, r1, r2) := m in (row_scale r0 k, row_scale r1 k, row_scale r2 k).

(** [m + m'] *)
Definition madd (m m' : mat3) : mat3 :=
  let '(r0, r1, r2) := m in
  let '(s0, s1, s2) := m' in (row_add r0 s0, row_add r1 s1, row_add r2 s2).

(** The matrix that [general_axis_rotation] builds once [s] and [c] are
    known. *)
Definition rotation_matrix (axis : vec3 T) (s c : T) : mat3 :=
  let v := sub o (one o) c in
  let '(a0, a1, a2) := axis in
  let add := ((zero o, opp o a2, a1),
              (a2, zero o, opp o a0),
              (opp o a1, a0, zero o)) in
  madd (madd (mscale (outer axis axis) v) (mscale eye3 c)) (mscale add s).

Definition general_axis_rotation (axis : vec3 T) (angle : T) : result mat3 :=
  s <- sin o angle ;;
  c <- cos o angle ;;
  Ok (rotation_matrix axis s c).

(** [translation] is a 3-by-1 column. *)
Definition generate_transform (axis : vec3 T) (angle : T)
    (translation : vec3 T) : result mat4 :=
  rot <- general_axis_rotation axis angle ;;
  let '(r0, r1, r2) := rot in
  let '(t0, t1, t2) := translation in
  let hrow (r : vec3 T) (t : T) : vec4 T :=
    let '(a, b, c) := r in (a, b, c, t) in
  Ok (hrow r0 t0, hrow r1 t1, hrow r2 t2,
      (zero o, zero o, zero o, one o)).

(** Vocabulary of the properties: transpose, product, blocks. *)

Definition transpose (m : mat3) : mat3 :=
  let '((a, b, c), (d, e, f), (g, h, i)) := m in
  ((a, d, g), (b, e, h), (c, f, i)).

Definition dot (a b : vec3 T) : T :=
  let '(a0, a1, a2) := a in
  let '(b0, b1, b2) := b in
  add o (add o (mul o a0 b0) (mul o a1 b1)) (mul o a2 b2).

Definition mulv (m : mat3) (x : vec3 T) : vec3 T :=
  let '(r0, r1, r2) := m in (dot r0 x, dot r1 x, dot r2 x).

Definition mmul (m m' : mat3) : mat3 :=
  let '(r0, r1, r2) := m in
  let '(c0, c1, c2) := transpose m' in
  ((dot r0 c0, dot r0 c1, dot r0 c2),
   (dot r1 c0, dot r1 c1, dot r1 c2),
   (dot r2 c0, dot r2 c1, dot r2 c2)).

(** [m[:3,:3]], [m[:3,3]] and [m[3,:]] of a 4-by-4 matrix. *)
Definition rotation_block (m : mat4) : mat3 :=
  let '((a, b, c, _), (d, e, f, _), (g, h, i, _), _) := m in
  ((a, b, c), (d, e, f), (g, h, i)).

Definition translation_column (m : mat4) : vec3 T :=
  let '((_, _, _, x), (_, _, _, y), (_, _, _, z), _) := m in (x, y, z).

Definition bottom_row (m : mat4) : vec4 T :=
  let '(_, _, _, r) := m in r.

End Over.

(** The code as it runs: binary64 cells, with the C library's [sin] and
    [cos]. *)
Definition binary64 (sin cos : float -> result float) : ops float :=
  mk_ops 0%float 1%float PrimFloat.add PrimFloat.sub PrimFloat.mul
         PrimFloat.opp sin cos.

(** The same formulas in exact real arithmetic. *)
Definition exact : ops R :=
  mk_ops 0%R 1%R Rplus Rminus Rmult Ropp
         (fun x => Ok (Rtrigo_def.sin x)) (fun x => Ok (Rtrigo_def.cos x)).

Definition norm (x : vec3 R) : R := sqrt (dot exact x x).

(** The rational number that a finite binary64 value stands for. *)
Definition to_Q (x : float) : Q :=
  match Prim2SF x with
  | S754_finite s m e =>
      let q := (inject_Z (Zpos m) * Qpower 2 e)%Q in
      if s then Qopp q else q
  | _ => 0%Q
  end.

End SpatialGeometry.

(** ** Vocabulary of the ray-bundle properties *)

Module BundleSpec.
Import RayBundle.

(** What the binary merge promises for one attribute. *)
Definition merged {A} (mine theirs out : option (list A)) : Prop :=
  (forall x y, mine = Some x -> theirs = Some y -> out = Some (x ++ y)) /\
  (mine = None \/ theirs = None -> out = None).

Definition all_present (b : t) : bool :=
  hasattr (_vertices b) && hasattr (_directions b) && hasattr (_energy b)
  && hasattr (_parents b) && hasattr (_ref_index b).

(** An override wins over the inherited value. *)
Definition overridden {A} (override inherited : option A) : option A :=
  match override with
  | Some _ => override
  | None => inherited
  end.

(** Every attribute that is present has [k] columns. *)
Definition width_is {A} (k : nat) (a : option (list A)) : Prop :=
  forall x, a = Some x -> length x = k.

Definition uniform_width (k : nat) (b : t) : Prop :=
  width_is k (_vertices b) /\ width_is k (_directions b) /\
  width_is k (_energy b) /\ width_is k (_parents b) /\
  width_is k (_ref_index b).

(** A valid index into an axis of length [n], and the position it names. *)
Definition valid_index (n : nat) (i : Z) : Prop :=
  (- Z.of_nat n <= i < Z.of_nat n)%Z.

Definition position (n : nat) (i : Z) : Z :=
  if (i <? 0)%Z then (i + Z.of_nat n)%Z else i.

(** The indices of [range(n)] that [sel] does not name, in order. *)
Definition index_complement (n : nat) (sel : list Z) : list Z :=
  filter (fun i => negb (existsb (Z.eqb i) (map (position n) sel)))
         (arange n).

End BundleSpec.

(** ** Vocabulary of the flat-surface properties *)

Module FlatSpec.
Import Vec.
Local Open Scope float_scope.

(** [dt = d . normal] *)
Definition ray_dt (L : Lib.t) (f : frame) (d : vec3 float) : float :=
  Lib.dot_rows L d (normal_of f).

(** [vt = normal . (v - plane_point)] *)
Definition ray_vt (L : Lib.t) (f : frame) (v : vec3 float) : float :=
  Lib.dot_cols L (normal_of f) (sub3 v (origin_of f)).

(** A negative parametric distance is a miss. *)
Definition forward_only (t : float) : float :=
  if t <? 0 then infinity else t.

(** The distance the flat manager reports for one ray. *)
Definition ray_distance (L : Lib.t) (f : frame) (v d : vec3 float)
  : float :=
  let dt := ray_dt L f d in
  if eps <? abs dt then forward_only (- ray_vt L f v / dt) else infinity.

(** [vertex + t * direction] *)
Definition hit_point (v : vec3 float) (t : float) (d : vec3 float)
  : vec3 float :=
  add3 v (scale3 t d).

(** The hit point in the coordinates of the frame whose inverse is [m]. *)
Definition local_point (L : Lib.t) (m : frame) (v : vec3 float) (t : float)
    (d : vec3 float) : vec4 float :=
  apply4 L m (hit_point v t d).

End FlatSpec.

(** ** Concrete inputs for the runs below *)

Module Samples.
Local Open Scope float_scope.

(** The plane [z = 0] with normal [(0,0,1)]. *)
Definition xy_frame : frame :=
  ((1, 0, 0, 0), (0, 1, 0, 0), (0, 0, 1, 0), (0, 0, 0, 1)).

(** Four rays: one hitting the front face, one hitting the back face, one
    parallel to the plane and one pointing away from it. *)
Definition four_rays : RayBundle.t :=
  RayBundle.mk
    (Some [(0, 0, 1); (1, 0, -2); (0, 0, 1); (0, 0, 1)])
    (Some [(0, 0, -1); (0, 0, 1); (1, 0, 0); (0, 0, 1)])
    (Some [1; 1; 1; 1])
    (Some [0; 1; 2; 3]%Z)
    (Some [1; 1; 1; 1]).

(** Four rays falling straight down on the plane at [(1,0)], [(1.5,0)],
    [(0.5,1.75)] and [(0.75,0.75)]. *)
Definition falling_rays : RayBundle.t :=
  RayBundle.mk
    (Some [(1, 0, 1); (1.5, 0, 1); (0.5, 1.75, 1); (0.75, 0.75, 1)])
    (Some [(0, 0, -1); (0, 0, -1); (0, 0, -1); (0, 0, -1)])
    None None None.

(** The inverse of a rigid frame [[R, t], [0, 0, 0, 1]] in closed form,
    [[R^T, -R^T t], [0, 0, 0, 1]]; it stands for [N.linalg.inv] in the
    concrete runs. *)
Definition rigid_inverse (f : frame) : result frame :=
  let '((a, b, c, x), (d, e, g, y), (h, i, j, z), _) := f in
  Ok ((a, d, h, - (a * x + d * y + h * z)),
      (b, e, i, - (b * x + e * y + i * z)),
      (c, g, j, - (c * x + g * y + j * z)),
      (0, 0, 0, 1)).

(** A frame that is neither the identity nor at the origin: its X, Y and Z
    axes are the world's y, z and x directions and its origin is
    [(2,-1,3)], so the surface is the plane [x = 2]. *)
Definition tilted_frame : frame :=
  ((0, 0, 1, 2), (1, 0, 0, -1), (0, 1, 0, 3), (0, 0, 0, 1)).

(** Six rays for that plane: a front hit at the local point [(0,0)], a back
    hit at [(1,0)], a front hit at [(1.5,3)], a ray parallel to the plane,
    a ray pointing away from it and a front hit at [(0.75,1.75)]. *)
Definition tilted_rays : RayBundle.t :=
  RayBundle.mk
    (Some [(5, -1, 3); (0, 0, 3); (4, 0.5, 6); (3, -1, 3); (3, -0.5, 4.5);
           (4, -0.25, 4.75)])
    (Some [(-1, 0, 0); (1, 0, 0); (-1, 0, 0); (0, 1, 0); (1, 0, 0);
           (-2, 0, 0)])
    None None None.

(** Reference routines for the concrete runs: products rounded one by one
    and added from left to right, the closed-form inverse above and [x * x]
    for the square.  The runs use small dyadic numbers, on which every
    rounding order gives the same result. *)
Definition dot3_plain (a b : vec3 float) : float :=
  let '(a0, a1, a2) := a in
  let '(b0, b1, b2) := b in
  a0 * b0 + a1 * b1 + a2 * b2.

Definition dot4_plain (a b : vec4 float) : float :=
  let '(a0, a1, a2, a3) := a in
  let '(b0, b1, b2, b3) := b in
  a0 * b0 + a1 * b1 + a2 * b2 + a3 * b3.

Definition square_plain (x : float) : result float :=
  if PrimFloat.is_finite x && PrimFloat.is_infinity (x * x)
  then Raise OverflowError else Ok (x * x).

Definition plain : Lib.t :=
  Lib.mk dot3_plain dot3_plain dot4_plain rigid_inverse square_plain.

(** [math.sin(3.0)] and [math.cos(3.0)]. *)
Definition sin_3 : float := 0x1.210386db6d55bp-3.
Definition cos_3 : float := -0x1.fae04be85e5d2p-1.

(** Binary64 arithmetic with the values that [math.sin] and [math.cos]
    return at the angle [3.0]. *)
Definition at_3 : SpatialGeometry.ops float :=
  SpatialGeometry.binary64 (fun _ => Ok sin_3) (fun _ => Ok cos_3).

(** What [math.sin] and [math.cos] do at an infinite angle. *)
Definition math_domain_error (x : float) : result float := Raise ValueError.

End Samples.

(** ** The rest of tracer/ray_bundle.py *)

Module RayBundleOps.
Import RayBundle.

(** NumPy broadcasting of the assigned value along the ray axis: the value
    has one column per target cell, or a single column that is repeated. *)
Definition broadcast_to {A} (k : nat) (vals : list A) : result (list A) :=
  if Nat.eqb (length vals) k then Ok vals
  else match vals with
       | [v] => Ok (repeat v k)
       | _ => Raise ValueError
       end.

(** Storing a value in a cell of a typed array converts it to the array's
    type, or raises.  A binary64 value goes into a binary64 array as it is;
    an integer goes into an int64 array when it fits and raises
    [OverflowError] when it does not. *)
Definition store_float64 {A} (v : A) : result A := Ok v.

Definition store_int64 (v : Z) : result Z :=
  if ((- 2 ^ 63 <=? v) && (v <? 2 ^ 63))%Z then Ok v
  else Raise OverflowError.

(** [a[..., idxs] = vals] for an integer index array: the value is
    converted to the array's type, then broadcast, then written; with a
    repeated index the last write wins. *)
Definition put {A} (store : A -> result A) (l : list A) (idxs : list Z)
    (vals : list A) : result (list A) :=
  vs <- mapM store vals ;;
  vs <- broadcast_to (length idxs) vs ;;
  js <- mapM (norm_index (length l)) idxs ;;
  Ok (assign_at l js vs).

(** The generated [get_<propname>(self, selector=None)]. *)
Definition get {A} (attr : option (list A)) (sel : option selector)
  : result (list A) :=
  a <- getter attr ;;
  match sel with
  | None => Ok a
  | Some s => select a s
  end.

(** The generated [set_<propname>(self, new_val, selector=None)]; it
    returns the attribute's new content. *)
Definition set {A} (store : A -> result A) (attr : option (list A))
    (new_val : list A) (sel : option selector) : result (option (list A)) :=
  match sel with
  | None => Ok (Some new_val)
  | Some s =>
      a <- getter attr ;;
      match s with
      | SelAll =>
          vs <- mapM store new_val ;;
          x <- broadcast_to (length a) vs ;; Ok (Some x)
      | SelIdx idxs => x <- put store a idxs new_val ;; Ok (Some x)
      end
  end.

(** One of the five [if hasattr(bundles[0], '_x'): ...N.hstack([b.get_x()
    for b in bundles])] statements of [concatenate_rays]. *)
Definition concat_attr {A} (proj : t -> option (list A)) (bundles : list t)
    (first : t) : result (option (list A)) :=
  if hasattr (proj first)
  then xs <- mapM (fun b => getter (proj b)) bundles ;; Ok (Some (concat xs))
  else Ok None.

Definition concatenate_rays (bundles : list t) : result t :=
  match bundles with
  | [] => Ok empty_bund
  | first :: _ =>
      directions <- concat_attr _directions bundles first ;;
      vertices   <- concat_attr _vertices   bundles first ;;
      energy     <- concat_attr _energy     bundles first ;;
      parents    <- concat_attr _parents    bundles first ;;
      ref_index  <- concat_attr _ref_index  bundles first ;;
      Ok (mk vertices directions energy parents ref_index)
  end.

(** The five attributes are present on the same bundles. *)
Definition same_attributes (a b : t) : Prop :=
  hasattr (_vertices a) = hasattr (_vertices b) /\
  hasattr (_directions a) = hasattr (_directions b) /\
  hasattr (_energy a) = hasattr (_energy b) /\
  hasattr (_parents a) = hasattr (_parents b) /\
  hasattr (_ref_index a) = hasattr (_ref_index b).

(** [out] holds the columns of [own] named by [idxs], in order; an absent
    attribute stays absent. *)
Definition selected {A} (idxs : list Z) (own out : option (list A)) : Prop :=
  match own with
  | None => out = None
  | Some a =>
      exists x, out = Some x /\ length x = length idxs /\
        forall j i, nth_error idxs j = Some i ->
          exists c, item a i = Ok c /\ nth_error x j = Some c
  end.

(** [b] misses an attribute that [first] has. *)
Definition lacks_attribute_of (first b : t) : Prop :=
  (hasattr (_directions first) = true /\ _directions b = None) \/
  (hasattr (_vertices first) = true /\ _vertices b = None) \/
  (hasattr (_energy first) = true /\ _energy b = None) \/
  (hasattr (_parents first) = true /\ _parents b = None) \/
  (hasattr (_ref_index first) = true /\ _ref_index b = None).

End RayBundleOps.

(** ** The rest of tracer/flat_surface.py *)

Module FlatDone.
Import GeometryManager.

Section WithBase.

(** [GeometryManager.done]: the base class is not among the sources. *)
Variable base_done : M unit.

(** [FlatGeometryManager.done] *)
Definition done : M unit :=
  fun self =>
    r <- base_done self ;;
    let self := snd r in
    Ok (tt,
        mk (_working_frame self) (_working_bundle self) (_params self)
           (_backside self) None None (_local self)).

End WithBase.

End FlatDone.

(** ** Vocabulary of the rotation properties *)

Module SpatialSpec.
Local Open Scope R_scope.

Definition add3 (x y : vec3 R) : vec3 R :=
  let '(x0, x1, x2) := x in
  let '(y0, y1, y2) := y in (x0 + y0, x1 + y1, x2 + y2).

Definition dot4 (r x : vec4 R) : R :=
  let '(r0, r1, r2, r3) := r in
  let '(x0, x1, x2, x3) := x in r0 * x0 + r1 * x1 + r2 * x2 + r3 * x3.

(** A 4-by-4 matrix applied to a homogeneous column. *)
Definition mulv4 (m : vec4 (vec4 R)) (x : vec4 R) : vec4 R :=
  let '(r0, r1, r2, r3) := m in (dot4 r0 x, dot4 r1 x, dot4 r2 x, dot4 r3 x).

Definition homogeneous (p : vec3 R) : vec4 R :=
  let '(p0, p1, p2) := p in (p0, p1, p2, 1).

End SpatialSpec.

(* ===================================================================== *)
(** * Part II.  Properties                                                *)
(* ===================================================================== *)

(** ** Facts about the NumPy fragment *)

Lemma bind_Ok_inv {A B} (c : result A) (k : A -> result B) (b : B) :
  bind c k = Ok b -> exists a, c = Ok a /\ k a = Ok b.
Proof.
  destruct c as [a|e]; simpl; intros H; [exists a; auto | discriminate].
Qed.

Ltac inv_bind H :=
  let a := fresh "a" in
  let Ha := fresh "H" a in
  apply bind_Ok_inv in H; destruct H as (a & Ha & H).

Lemma mapM_length {A B} (f : A -> result B) (l : list A) (r : list B) :
  mapM f l = Ok r -> length r = length l.
Proof.
  revert r; induction l as [|a t IH]; simpl; intros r H.
  - inversion H; reflexivity.
  - inv_bind H. inv_bind H. inversion H; subst; simpl.
    f_equal; apply IH; assumption.
Qed.

Lemma take_length {A} (l : list A) (idxs : list Z) (r : list A) :
  take l idxs = Ok r -> length r = length idxs.
Proof. apply mapM_length. Qed.

Lemma mapM_ext_in {A B} (f g : A -> result B) (l : list A) :
  (forall a, In a l -> f a = g a) -> mapM f l = mapM g l.
Proof.
  induction l as [|a t IH]; simpl; intros H; [reflexivity|].
  rewrite (H a) by auto. rewrite IH by auto. reflexivity.
Qed.

Lemma mapM_Ok {A B} (g : A -> B) (l : list A) :
  mapM (fun a => Ok (g a)) l = Ok (map g l).
Proof.
  induction l as [|a t IH]; simpl; [reflexivity|].
  rewrite IH; reflexivity.
Qed.

Lemma norm_index_valid (n : nat) (i : Z) :
  BundleSpec.valid_index n i ->
  norm_index n i = Ok (Z.to_nat (BundleSpec.position n i)).
Proof.
  unfold BundleSpec.valid_index, norm_index, BundleSpec.position; intros H.
  destruct (Z.ltb_spec i 0).
  - replace (0 <=? i)%Z with false by (symmetry; apply Z.leb_gt; lia).
    simpl.
    replace (- Z.of_nat n <=? i)%Z with true by (symmetry; apply Z.leb_le; lia).
    reflexivity.
  - replace (0 <=? i)%Z with true by (symmetry; apply Z.leb_le; lia).
    replace (i <? Z.of_nat n)%Z with true by (symmetry; apply Z.ltb_lt; lia).
    reflexivity.
Qed.

Lemma position_nonneg (n : nat) (i : Z) :
  BundleSpec.valid_index n i -> (0 <= BundleSpec.position n i)%Z.
Proof.
  unfold BundleSpec.valid_index, BundleSpec.position.
  destruct (Z.ltb_spec i 0); lia.
Qed.

Lemma existsb_nat_Z (p : nat) (js : list nat) :
  existsb (Nat.eqb p) js = existsb (Z.eqb (Z.of_nat p)) (map Z.of_nat js).
Proof.
  induction js as [|j t IH]; simpl; [reflexivity|].
  rewrite IH. f_equal.
  destruct (Nat.eqb_spec p j), (Z.eqb_spec (Z.of_nat p) (Z.of_nat j));
    auto; lia.
Qed.

(** Dropping positions from [N.arange] is filtering its values. *)
Lemma drop_positions_arange (js : list nat) (k pos : nat) :
  drop_positions js pos (map Z.of_nat (seq pos k)) =
  filter (fun i => negb (existsb (Z.eqb i) (map Z.of_nat js)))
         (map Z.of_nat (seq pos k)).
Proof.
  revert pos; induction k as [|k IH]; intros pos; simpl; [reflexivity|].
  rewrite <- existsb_nat_Z.
  destruct (existsb (Nat.eqb pos) js); simpl; rewrite IH; reflexivity.
Qed.

Lemma arange_length (n : nat) : length (arange n) = n.
Proof. unfold arange. rewrite length_map, length_seq. reflexivity. Qed.

Lemma delete_arange (n : nat) (sel : list Z) :
  Forall (BundleSpec.valid_index n) sel ->
  delete (arange n) sel = Ok (BundleSpec.index_complement n sel).
Proof.
  intros Hv. unfold delete. rewrite arange_length.
  rewrite (mapM_ext_in _ (fun i => Ok (Z.to_nat (BundleSpec.position n i)))).
  2:{ intros i Hi. apply norm_index_valid.
      rewrite Forall_forall in Hv; auto. }
  rewrite mapM_Ok. simpl.
  unfold arange. rewrite drop_positions_arange.
  unfold BundleSpec.index_complement, arange.
  rewrite map_map.
  replace (map (fun x => Z.of_nat (Z.to_nat (BundleSpec.position n x))) sel)
    with (map (BundleSpec.position n) sel); [reflexivity|].
  apply map_ext_in. intros i Hi.
  rewrite Z2Nat.id; [reflexivity|].
  apply position_nonneg. rewrite Forall_forall in Hv; auto.
Qed.

(** ** Ray bundles *)

Section BundleFacts.
Import RayBundle BundleSpec.

Lemma add_attr_merged {A} (x y : option (list A)) :
  merged x y (add_attr x y).
Proof.
  split.
  - intros u v -> ->; reflexivity.
  - intros [-> | ->]; [reflexivity | destruct x; reflexivity].
Qed.

Lemma inherit_attr_overridden {A} (o own : option (list A)) s r :
  inherit_attr None own s = Ok r ->
  inherit_attr o own s = Ok (overridden o r).
Proof.
  destruct o as [x|]; simpl; [reflexivity | auto].
Qed.

Lemma inherit_attr_width {A} (own : option (list A)) idxs r :
  inherit_attr None own (SelIdx idxs) = Ok r -> width_is (length idxs) r.
Proof.
  destruct own as [a|]; simpl; intros H x Hx.
  - inv_bind H. assert (a0 = x) by congruence. subst a0.
    eapply take_length; eassumption.
  - congruence.
Qed.

End BundleFacts.

(** C5.  [a + b] is a new bundle in which every attribute present on both
    operands is [a]'s columns followed by [b]'s, and every attribute missing
    from either operand is absent. *)
Theorem add_merges_attributes_present_on_both (a b : RayBundle.t) :
  let r := RayBundle.add a b in
  BundleSpec.merged (RayBundle._vertices a) (RayBundle._vertices b)
                    (RayBundle._vertices r) /\
  BundleSpec.merged (RayBundle._directions a) (RayBundle._directions b)
                    (RayBundle._directions r) /\
  BundleSpec.merged (RayBundle._energy a) (RayBundle._energy b)
                    (RayBundle._energy r) /\
  BundleSpec.merged (RayBundle._parents a) (RayBundle._parents b)
                    (RayBundle._parents r) /\
  BundleSpec.merged (RayBundle._ref_index a) (RayBundle._ref_index b)
                    (RayBundle._ref_index r).
Proof.
  simpl. repeat split; try apply add_attr_merged.
Qed.

(** C10.  [empty_bund()] has all five attributes and no rays, and merging it
    on either side of a bundle that has all five attributes gives that
    bundle back. *)
Theorem empty_bund_is_identity_of_add :
  BundleSpec.all_present RayBundle.empty_bund = true /\
  RayBundle.get_num_rays RayBundle.empty_bund = Ok 0%nat /\
  forall b : RayBundle.t,
    BundleSpec.all_present b = true ->
    RayBundle.add RayBundle.empty_bund b = b /\
    RayBundle.add b RayBundle.empty_bund = b.
Proof.
  split; [reflexivity|]. split; [reflexivity|].
  intros [[v|] [d|] [e|] [p|] [r|]] H; try discriminate H.
  unfold RayBundle.add, RayBundle.empty_bund; simpl.
  rewrite !app_nil_r. split; reflexivity.
Qed.

(** C6, as the code has it.  [inherit] makes no length check: whenever the
    selection of the bundle's own attributes succeeds, the call with
    overrides succeeds too, each override is stored exactly as it was given
    and each attribute that was not overridden holds one column per selected
    index. *)
Theorem inherit_stores_overrides_unchecked
    (b : RayBundle.t) (idxs : list Z)
    (vertices direction : option (list (vec3 float)))
    (energy : option (list float)) (parents : option (list Z))
    (ref_index : option (list float)) (r0 : RayBundle.t) :
  RayBundle.inherit b (SelIdx idxs) None None None None None = Ok r0 ->
  RayBundle.inherit b (SelIdx idxs) vertices direction energy parents ref_index
  = Ok (RayBundle.mk
          (BundleSpec.overridden vertices (RayBundle._vertices r0))
          (BundleSpec.overridden direction (RayBundle._directions r0))
          (BundleSpec.overridden energy (RayBundle._energy r0))
          (BundleSpec.overridden parents (RayBundle._parents r0))
          (BundleSpec.overridden ref_index (RayBundle._ref_index r0)))
  /\ BundleSpec.uniform_width (length idxs) r0.
Proof.
  unfold RayBundle.inherit. intros H.
  inv_bind H. inv_bind H. inv_bind H. inv_bind H. inv_bind H.
  inversion H; subst; clear H; simpl.
  split.
  - rewrite (inherit_attr_overridden vertices _ _ Ha); simpl.
    rewrite (inherit_attr_overridden direction _ _ Ha0); simpl.
    rewrite (inherit_attr_overridden energy _ _ Ha1); simpl.
    rewrite (inherit_attr_overridden parents _ _ Ha2); simpl.
    rewrite (inherit_attr_overridden ref_index _ _ Ha3); simpl.
    reflexivity.
  - repeat split; eapply inherit_attr_width; eassumption.
Qed.

(** C7.  For a bundle of [n] rays and valid indices [sel], [delete_rays]
    returns what [inherit] returns for the index complement of [sel] over
    [range(n)] and no overrides. *)
Theorem delete_rays_is_inherit_of_complement
    (b : RayBundle.t) (n : nat) (sel : list Z) :
  RayBundle.get_num_rays b = Ok n ->
  Forall (BundleSpec.valid_index n) sel ->
  RayBundle.delete_rays b sel =
  RayBundle.inherit b (SelIdx (BundleSpec.index_complement n sel))
                    None None None None None.
Proof.
  intros Hn Hv. unfold RayBundle.delete_rays.
  rewrite Hn; simpl. rewrite (delete_arange Hv); reflexivity.
Qed.

(** ** Facts about binary64 comparisons *)

Section FloatOrder.
Local Open Scope float_scope.

Lemma SFcompare_swap (x y : spec_float) :
  SFcompare y x = option_map CompOpp (SFcompare x y).
Proof.
  destruct x as [sx|sx| |sx mx ex], y as [sy|sy| |sy my ey]; simpl;
    try reflexivity;
    try (destruct sx; reflexivity); try (destruct sy; reflexivity);
    try (destruct sx, sy; reflexivity).
  destruct sx, sy; try reflexivity;
    rewrite (Z.compare_antisym ey ex);
    destruct (ey ?= ex)%Z eqn:E; simpl; try reflexivity;
    rewrite !Pos.compare_cont_spec; simpl;
    rewrite (Pos.compare_antisym my mx);
    destruct (my ?= mx)%positive; reflexivity.
Qed.

Lemma leb_true_ltb_false (x y : float) :
  (x <=? y) = true -> (y <? x) = false.
Proof.
  rewrite leb_spec, ltb_spec. unfold SFleb, SFltb.
  rewrite (SFcompare_swap (Prim2SF x) (Prim2SF y)).
  destruct (SFcompare (Prim2SF x) (Prim2SF y)) as [[ | | ]|];
    simpl; congruence.
Qed.

Lemma ltb_true_leb_false (x y : float) :
  (x <? y) = true -> (y <=? x) = false.
Proof.
  intros H. destruct (y <=? x) eqn:E; [|reflexivity].
  apply leb_true_ltb_false in E. congruence.
Qed.

Lemma ltb_irrefl (x : float) : (x <? x) = false.
Proof.
  rewrite ltb_spec. unfold SFltb.
  generalize (SFcompare_swap (Prim2SF x) (Prim2SF x)).
  destruct (SFcompare (Prim2SF x) (Prim2SF x)) as [[ | | ]|];
    simpl; congruence.
Qed.

(** Two numbers are ordered one way or the other unless one is [nan]. *)
Lemma leb_or_ltb_or_nan (x y : float) :
  (x <=? y) = true \/ (y <? x) = true \/
  PrimFloat.is_nan x = true \/ PrimFloat.is_nan y = true.
Proof.
  unfold PrimFloat.is_nan.
  rewrite leb_spec, ltb_spec, !eqb_spec. unfold SFleb, SFltb, SFeqb.
  rewrite (SFcompare_swap (Prim2SF x) (Prim2SF y)).
  destruct (SFcompare (Prim2SF x) (Prim2SF y)) as [[ | | ]|] eqn:E;
    simpl; auto.
  right; right.
  destruct (Prim2SF x) as [sx|sx| |sx mx ex] eqn:Ex; simpl; auto;
    destruct (Prim2SF y) as [sy|sy| |sy my ey] eqn:Ey; simpl; auto;
    simpl in E; try discriminate E.
Qed.

End FloatOrder.

(** ** Facts about masks and index arrays *)

Section MaskFacts.
Import Vec.

Lemma zip_with_length {A B C} (f : A -> B -> C) (l : list A) (l' : list B) :
  length l' = length l -> length (zip_with f l l') = length l.
Proof.
  revert l'; induction l as [|a t IH]; intros [|b t']; simpl;
    intros H; try reflexivity; try discriminate.
  f_equal; apply IH; lia.
Qed.

Lemma nth_error_zip_with {A B C} (f : A -> B -> C) l l' i a b :
  nth_error l i = Some a -> nth_error l' i = Some b ->
  nth_error (zip_with f l l') i = Some (f a b).
Proof.
  revert l l'; induction i as [|i IH]; intros [|x t] [|y t']; simpl;
    intros Ha Hb; try discriminate.
  - congruence.
  - apply IH; assumption.
Qed.

(** Scattering the values computed on the masked columns gives, cell by
    cell, the value computed on that column, and the old content
    elsewhere. *)
Lemma mask_assign_gather {A B C} (sel : B -> bool)
    (h : C -> B -> A) (c : A) (vs : list C) (dts : list B) :
  length dts = length vs ->
  mask_assign (repeat c (length vs)) (map sel dts)
    (zip_with h (mask_select vs (map sel dts))
                (mask_select dts (map sel dts)))
  = zip_with (fun v dt => if sel dt then h v dt else c) vs dts.
Proof.
  revert dts; induction vs as [|v t IH]; intros [|dt dts]; simpl;
    intros H; try reflexivity; try discriminate.
  destruct (sel dt); simpl; rewrite IH by lia; reflexivity.
Qed.

Lemma mask_fill_map {A} (test : A -> bool) (c : A) (l : list A) :
  mask_fill l (map test l) c = map (fun a => if test a then c else a) l.
Proof.
  induction l as [|a t IH]; simpl; [reflexivity|].
  rewrite IH; reflexivity.
Qed.

Lemma mask_fill_length {A} (l : list A) (m : list bool) (c : A) :
  length (mask_fill l m c) = length l.
Proof.
  revert m; induction l as [|a t IH]; intros [|b m]; simpl; auto.
Qed.

Lemma nth_error_mask_fill {A} (l : list A) (m : list bool) (c : A) i a b :
  nth_error l i = Some a -> nth_error m i = Some b ->
  nth_error (mask_fill l m c) i = Some (if b then c else a).
Proof.
  revert l m; induction i as [|i IH]; intros [|x t] [|y m]; simpl;
    intros Ha Hb; try discriminate.
  - inversion Ha; inversion Hb; subst; reflexivity.
  - apply IH; assumption.
Qed.

Lemma zip_with_map_l {A A' B C} (f : A' -> B -> C) (g : A -> A')
    (l : list A) (l' : list B) :
  zip_with f (map g l) l' = zip_with (fun a b => f (g a) b) l l'.
Proof.
  revert l'; induction l as [|a t IH]; intros [|b t']; simpl;
    try reflexivity.
  rewrite IH; reflexivity.
Qed.

Lemma zip_with_map_r {A B B' C} (f : A -> B' -> C) (g : B -> B')
    (l : list A) (l' : list B) :
  zip_with f l (map g l') = zip_with (fun a b => f a (g b)) l l'.
Proof.
  revert l'; induction l as [|a t IH]; intros [|b t']; simpl;
    try reflexivity.
  rewrite IH; reflexivity.
Qed.

End MaskFacts.

(** ** The infinite flat surface *)

Unset Implicit Arguments.

Section FlatFacts.
Import GeometryManager Vec FlatSpec.
Local Open Scope float_scope.

Variable L : Lib.t.

(** The vectorised computation of [params], ray by ray. *)
Lemma params_per_ray (f : frame) (vs ds : list (vec3 float)) :
  length ds = length vs ->
  let v := map (fun c => sub3 c (origin_of f)) vs in
  let dt := map (fun c => Lib.dot_rows L c (normal_of f)) ds in
  let unparallel := map (fun x => eps <? abs x) dt in
  let params :=
    mask_assign (repeat infinity (length vs)) unparallel
      (zip_with (fun a b => - a / b)
         (map (fun c => Lib.dot_cols L (normal_of f) c)
              (mask_select v unparallel))
         (mask_select dt unparallel)) in
  mask_fill params (map (fun p => p <? 0) params) infinity
  = zip_with (ray_distance L f) vs ds.
Proof.
  intros Hlen v dt unparallel params.
  assert (E : params =
    zip_with (fun a x => if eps <? abs x
                         then - Lib.dot_cols L (normal_of f) a / x
                         else infinity)
             v dt).
  { unfold params. rewrite zip_with_map_l.
    replace (length vs) with (length v)
      by (unfold v; rewrite length_map; reflexivity).
    apply (mask_assign_gather (fun x => eps <? abs x)
             (fun a x => - Lib.dot_cols L (normal_of f) a / x)).
    unfold v, dt. rewrite !length_map; assumption. }
  rewrite E, mask_fill_map. unfold v, dt.
  rewrite zip_with_map_l, zip_with_map_r.
  clear. revert ds.
  induction vs as [|a t IH]; intros [|d t']; simpl; try reflexivity.
  rewrite IH. f_equal.
  unfold ray_distance, ray_dt, ray_vt, forward_only.
  destruct (eps <? abs (Lib.dot_rows L d (normal_of f))); reflexivity.
Qed.

Lemma flat_find_intersections_run f b self vs ds :
  RayBundle._vertices b = Some vs ->
  RayBundle._directions b = Some ds ->
  length ds = length vs ->
  FlatGeometryManager.find_intersections L f b self =
  Ok (zip_with (ray_distance L f) vs ds,
      mk (Some f) (Some b) (Some (zip_with (ray_distance L f) vs ds))
         (Some (BMask (map (fun d => 0 <? ray_dt L f d) ds)))
         (_idxs self) (_global self) (_local self)).
Proof.
  intros Hv Hd Hlen.
  unfold FlatGeometryManager.find_intersections,
    GeometryManager.find_intersections,
    RayBundle.get_directions, RayBundle.get_vertices,
    RayBundle.get_num_rays.
  rewrite Hv, Hd; simpl.
  rewrite !length_map, Hlen, Nat.eqb_refl; simpl.
  pose proof (params_per_ray f vs ds Hlen) as P; cbv zeta in P.
  rewrite !P, map_map. reflexivity.
Qed.

Lemma flat_find_intersections_inv f b self r s :
  FlatGeometryManager.find_intersections L f b self = Ok (r, s) ->
  exists vs ds,
    RayBundle._vertices b = Some vs /\
    RayBundle._directions b = Some ds /\
    length ds = length vs.
Proof.
  unfold FlatGeometryManager.find_intersections,
    GeometryManager.find_intersections,
    RayBundle.get_directions, RayBundle.get_vertices,
    RayBundle.get_num_rays.
  destruct (RayBundle._directions b) as [ds|]; simpl; [|discriminate].
  destruct (RayBundle._vertices b) as [vs|]; simpl; [|discriminate].
  rewrite !length_map.
  destruct (Nat.eqb_spec (length ds) (length vs)); simpl; [|discriminate].
  intros _. exists vs, ds. auto.
Qed.

End FlatFacts.

(** C1.  Let the frame have the Z axis [(zx,zy,zz)] (column 2 of its
    rotation block) and the origin [(ox,oy,oz)] (its column 3).  On a
    bundle of [n] rays [find_intersections] returns [n] distances.  For the
    ray with vertex [(v0,v1,v2)] and direction [(d0,d1,d2)], with
    [dt = d . (zx,zy,zz)] and [vt = (zx,zy,zz) . (v0-ox, v1-oy, v2-oz)] as
    [N.dot] returns them: [|dt| <= 1e-10] gives [+inf]; [|dt| > 1e-10]
    gives [-vt/dt], replaced by [+inf] when it is negative; and a [dt] for
    which neither comparison holds (a NaN) gives [+inf]. *)
Theorem flat_find_intersections_distances
    (L : Lib.t)
    (xx yx zx ox xy yy zy oy xz yz zz oz h0 h1 h2 h3 : float)
    (b : RayBundle.t) (self : GeometryManager.state)
    (vs ds : list (vec3 float)) :
  let f : frame :=
    ((xx, yx, zx, ox), (xy, yy, zy, oy), (xz, yz, zz, oz), (h0, h1, h2, h3))
  in
  RayBundle._vertices b = Some vs ->
  RayBundle._directions b = Some ds ->
  length ds = length vs ->
  exists params s,
    FlatGeometryManager.find_intersections L f b self = Ok (params, s) /\
    RayBundle.get_num_rays b = Ok (length params) /\
    forall i v0 v1 v2 d0 d1 d2,
      nth_error vs i = Some (v0, v1, v2) ->
      nth_error ds i = Some (d0, d1, d2) ->
      let dt := Lib.dot_rows L (d0, d1, d2) (zx, zy, zz) in
      let vt := Lib.dot_cols L (zx, zy, zz)
                  (v0 - ox, v1 - oy, v2 - oz)%float in
      exists t,
        nth_error params i = Some t /\
        ((abs dt <=? 0x1.b7cdfd9d7bdbbp-34)%float = true -> t = infinity) /\
        ((0x1.b7cdfd9d7bdbbp-34 <? abs dt)%float = true ->
         t = if (- vt / dt <? 0)%float then infinity else (- vt / dt)%float)
        /\
        ((abs dt <=? 0x1.b7cdfd9d7bdbbp-34)%float = false ->
         (0x1.b7cdfd9d7bdbbp-34 <? abs dt)%float = false -> t = infinity).
Proof.
  intros f Hv Hd Hlen.
  eexists; eexists; split;
    [apply (flat_find_intersections_run L f b self vs ds); assumption|].
  split.
  - unfold RayBundle.get_num_rays. rewrite Hv.
    rewrite zip_with_length by assumption. reflexivity.
  - intros i v0 v1 v2 d0 d1 d2 Hiv Hid dt vt.
    exists (FlatSpec.ray_distance L f (v0, v1, v2) (d0, d1, d2)). split.
    + apply nth_error_zip_with; assumption.
    + change (FlatSpec.ray_distance L f (v0, v1, v2) (d0, d1, d2))
        with (if (0x1.b7cdfd9d7bdbbp-34 <? abs dt)%float
              then (if (- vt / dt <? 0)%float then infinity
                    else (- vt / dt)%float)
              else infinity).
      split; [|split].
      * intros H. rewrite (leb_true_ltb_false H). reflexivity.
      * intros H. rewrite H. reflexivity.
      * intros _ H. rewrite H. reflexivity.
Qed.

(** ** Facts about index arrays *)

Section IndexFacts.

Lemma mapM_nth {A B} (f : A -> result B) (l : list A) (r : list B) j a :
  mapM f l = Ok r -> nth_error l j = Some a ->
  exists y, f a = Ok y /\ nth_error r j = Some y.
Proof.
  revert r j; induction l as [|x t IH]; simpl; intros r j H Hj.
  - destruct j; discriminate.
  - inv_bind H. inv_bind H. inversion H; subst; clear H.
    destruct j as [|j]; simpl in *.
    + inversion Hj; subst. eauto.
    + eapply IH; eauto.
Qed.

Lemma nonzero_from_above (m : list bool) (pos j : nat) :
  j < pos -> existsb (Nat.eqb j) (nonzero_from pos m) = false.
Proof.
  revert pos; induction m as [|b m IH]; simpl; intros pos H;
    [reflexivity|].
  destruct b; simpl; rewrite IH by lia; [|reflexivity].
  destruct (Nat.eqb_spec j pos); [lia | reflexivity].
Qed.

(** A position is listed by [nonzero] exactly when the mask holds there. *)
Lemma nonzero_from_mem (m : list bool) (pos k : nat) (b : bool) :
  nth_error m k = Some b ->
  existsb (Nat.eqb (pos + k)) (nonzero_from pos m) = b.
Proof.
  revert pos k; induction m as [|x m IH]; intros pos [|k]; simpl;
    intros H; try discriminate.
  - inversion H; subst. rewrite Nat.add_0_r.
    destruct b; simpl.
    + rewrite Nat.eqb_refl; reflexivity.
    + apply nonzero_from_above; lia.
  - pose proof (IH (S pos) k H) as E.
    replace (S pos + k) with (pos + S k) in E by lia.
    destruct x; simpl; rewrite E; [|reflexivity].
    destruct (Nat.eqb_spec (pos + S k) pos); [lia | reflexivity].
Qed.

Lemma nonzero_mem (m : list bool) (k : nat) (b : bool) :
  nth_error m k = Some b -> existsb (Nat.eqb k) (nonzero m) = b.
Proof. apply (nonzero_from_mem m 0 k). Qed.

Lemma nonzero_from_bounded (m : list bool) (pos : nat) :
  forallb (fun j => Nat.ltb j (pos + length m)) (nonzero_from pos m) = true.
Proof.
  revert pos; induction m as [|b m IH]; simpl; intros pos; [reflexivity|].
  pose proof (IH (S pos)) as E.
  replace (S pos + length m) with (pos + S (length m)) in E by lia.
  destruct b; simpl; rewrite E; [|reflexivity].
  rewrite andb_true_r. apply Nat.ltb_lt; lia.
Qed.

Lemma set_nth_length {A} (l : list A) (j : nat) (v : A) :
  length (set_nth l j v) = length l.
Proof.
  revert j; induction l as [|a t IH]; intros [|j]; simpl; auto.
Qed.

Lemma nth_error_set_nth {A} (l : list A) (j i : nat) (v : A) :
  nth_error (set_nth l j v) i =
  if Nat.eqb i j
  then (if Nat.ltb j (length l) then Some v else None)
  else nth_error l i.
Proof.
  revert j i; induction l as [|a t IH]; intros [|j] [|i]; simpl;
    try reflexivity.
  - destruct (Nat.eqb i j); reflexivity.
  - rewrite IH. reflexivity.
Qed.

(** Writing one value [v] at the positions [js]. *)
Lemma nth_error_assign_at_const {A} (js : list nat) (l : list A) (v : A)
    (i : nat) :
  nth_error (assign_at l js (map (fun _ => v) js)) i =
  if existsb (Nat.eqb i) js
  then (if Nat.ltb i (length l) then Some v else None)
  else nth_error l i.
Proof.
  revert l; induction js as [|j js IH]; simpl; intros l; [reflexivity|].
  rewrite IH, set_nth_length, nth_error_set_nth.
  destruct (Nat.eqb_spec i j) as [->|Hne]; simpl.
  - destruct (existsb (Nat.eqb j) js); reflexivity.
  - reflexivity.
Qed.

Lemma assign_at_length {A} (js : list nat) (l vals : list A) :
  length (assign_at l js vals) = length l.
Proof.
  revert l vals; induction js as [|j js IH]; intros l [|v vals]; simpl;
    try reflexivity.
  rewrite IH, set_nth_length. reflexivity.
Qed.

End IndexFacts.

Section SelectFacts.
Import GeometryManager Vec FlatSpec.
Local Open Scope float_scope.

Lemma item_map {A B} (g : A -> B) (l : list A) (i : Z) :
  item (map g l) i = (a <- item l i ;; Ok (g a)).
Proof.
  unfold item. rewrite length_map.
  destruct (norm_index (length l) i) as [j|e]; simpl; [|reflexivity].
  rewrite nth_error_map. destruct (nth_error l j); reflexivity.
Qed.

Lemma take_nth {A} (l : list A) (idxs : list Z) (r : list A) j i :
  take l idxs = Ok r -> nth_error idxs j = Some i ->
  exists a, item l i = Ok a /\ nth_error r j = Some a.
Proof. apply mapM_nth. Qed.

(** What a successful [select_rays] of the infinite surface read and
    wrote. *)
Lemma flat_select_rays_inv (idxs : list Z) (s s' : state) (u : unit) :
  FlatGeometryManager.select_rays idxs s = Ok (u, s') ->
  exists bk js wb vs ds ps v d p,
    _backside s = Some bk /\
    FlatGeometryManager.narrow_backside bk idxs = Ok js /\
    _working_bundle s = Some wb /\
    RayBundle._vertices wb = Some vs /\ take vs idxs = Ok v /\
    RayBundle._directions wb = Some ds /\ take ds idxs = Ok d /\
    _params s = Some ps /\ take ps idxs = Ok p /\
    s' = mk (_working_frame s) (_working_bundle s) None (Some (BIdx js))
            (Some idxs) (Some (points v p d)) (_local s).
Proof.
  unfold FlatGeometryManager.select_rays, RayBundle.get_vertices,
    RayBundle.get_directions.
  destruct (_backside s) as [bk|]; simpl; [|discriminate].
  destruct (FlatGeometryManager.narrow_backside bk idxs) as [js|] eqn:E1;
    simpl; [|discriminate].
  destruct (_working_bundle s) as [wb|]; simpl; [|discriminate].
  destruct (RayBundle._vertices wb) as [vs|] eqn:Ev; simpl;
    [|discriminate].
  destruct (take vs idxs) as [v|] eqn:E2; simpl; [|discriminate].
  destruct (RayBundle._directions wb) as [ds|] eqn:Ed; simpl;
    [|discriminate].
  destruct (take ds idxs) as [d|] eqn:E3; simpl; [|discriminate].
  destruct (_params s) as [ps|]; simpl; [|discriminate].
  destruct (take ps idxs) as [p|] eqn:E4; simpl; [|discriminate].
  intros H; inversion H; subst.
  exists bk, js, wb, vs, ds, ps, v, d, p. repeat split; auto.
Qed.

(** The normals of a manager whose back-facing columns are [nonzero x]. *)
Lemma get_normals_run (f : frame) (idxs : list Z) (x : list bool)
    (s : state) :
  _working_frame s = Some f ->
  _idxs s = Some idxs ->
  _backside s = Some (BIdx (nonzero x)) ->
  length x = length idxs ->
  exists norms,
    FlatGeometryManager.get_normals s = Ok (norms, s) /\
    length norms = length idxs /\
    forall j bj, nth_error x j = Some bj ->
      nth_error norms j =
      Some (if bj then times_minus_one (normal_of f) else normal_of f).
Proof.
  intros Hf Hi Hb Hlen.
  unfold FlatGeometryManager.get_normals. rewrite Hf, Hi, Hb; simpl.
  rewrite repeat_length, <- Hlen.
  pose proof (nonzero_from_bounded x 0) as Hbd; simpl in Hbd.
  unfold nonzero at 1. rewrite Hbd; simpl.
  eexists; split; [reflexivity|]. split.
  - rewrite assign_at_length, repeat_length. reflexivity.
  - intros j bj Hj.
    rewrite (map_ext _ (fun _ => times_minus_one (normal_of f)))
      by (intros a; rewrite nth_repeat; reflexivity).
    rewrite nth_error_assign_at_const, repeat_length.
    rewrite (nonzero_mem x j bj Hj).
    assert (Hlt : j < length x) by (apply nth_error_Some; congruence).
    destruct bj.
    + apply Nat.ltb_lt in Hlt. rewrite Hlt. reflexivity.
    + rewrite nth_error_repeat by assumption. reflexivity.
Qed.

(** The back-face flag of the selected ray [idxs[j]]. *)
Lemma selected_backside (L : Lib.t) (f : frame) (ds : list (vec3 float))
    (idxs : list Z) (x : list bool) (j : nat) (i : Z) (d : vec3 float) :
  take (map (fun d => 0 <? ray_dt L f d) ds) idxs = Ok x ->
  nth_error idxs j = Some i -> item ds i = Ok d ->
  nth_error x j = Some (0 <? ray_dt L f d).
Proof.
  intros Hx Hj Hi.
  destruct (take_nth _ _ _ j i Hx Hj) as (bj & Hbj & Hxj).
  rewrite item_map, Hi in Hbj; simpl in Hbj. inversion Hbj; subst bj.
  exact Hxj.
Qed.

End SelectFacts.

(** C3.  Let the frame have the Z axis [(zx,zy,zz)] (column 2 of its
    rotation block).  After [find_intersections] and [select_rays(idxs)]
    the infinite surface reports [len(idxs)] normals.  With
    [dt = d . (zx,zy,zz)] for the direction [d] of the ray [idxs[j]],
    column [j] is [(zx,zy,zz)] when [dt <= 0] and
    [(zx * -1, zy * -1, zz * -1)] when [dt > 0]; a [dt] for which neither
    holds (a NaN) leaves the column at [(zx,zy,zz)]. *)
Theorem flat_get_normals_orientation
    (L : Lib.t)
    (xx yx zx ox xy yy zy oy xz yz zz oz h0 h1 h2 h3 : float)
    (b : RayBundle.t) (self : GeometryManager.state)
    (idxs : list Z) (params : list float) (s1 s2 : GeometryManager.state)
    (u : unit) :
  let f : frame :=
    ((xx, yx, zx, ox), (xy, yy, zy, oy), (xz, yz, zz, oz), (h0, h1, h2, h3))
  in
  FlatGeometryManager.find_intersections L f b self = Ok (params, s1) ->
  FlatGeometryManager.select_rays idxs s1 = Ok (u, s2) ->
  exists norms,
    FlatGeometryManager.get_normals s2 = Ok (norms, s2) /\
    length norms = length idxs /\
    forall ds j i d0 d1 d2,
      RayBundle._directions b = Some ds ->
      nth_error idxs j = Some i -> item ds i = Ok (d0, d1, d2) ->
      let dt := Lib.dot_rows L (d0, d1, d2) (zx, zy, zz) in
      exists c,
        nth_error norms j = Some c /\
        ((dt <=? 0)%float = true -> c = (zx, zy, zz)) /\
        ((0 <? dt)%float = true ->
         c = (zx * -1, zy * -1, zz * -1)%float) /\
        ((dt <=? 0)%float = false -> (0 <? dt)%float = false ->
         c = (zx, zy, zz)).
Proof.
  intros f Hfind Hsel.
  destruct (flat_find_intersections_inv L f b self _ _ Hfind)
    as (vs & ds & Hv & Hd & Hlen).
  rewrite (flat_find_intersections_run L f b self vs ds Hv Hd Hlen) in Hfind.
  inversion Hfind; subst params s1; clear Hfind.
  destruct (flat_select_rays_inv idxs _ _ _ Hsel)
    as (bk & js & wb & vs' & ds' & ps & v & d & p & Hbk & Hjs & _ & _ & _ & _
        & _ & _ & _ & Hs2).
  simpl in Hbk, Hs2. inversion Hbk; subst bk; clear Hbk.
  simpl in Hjs. inv_bind Hjs. inversion Hjs; subst js; clear Hjs.
  assert (Hlx : length a = length idxs) by (eapply take_length; eassumption).
  destruct (get_normals_run f idxs a s2)
    as (norms & Hrun & Hn & Hcol);
    try (subst s2; reflexivity); try assumption.
  exists norms. split; [assumption|]. split; [assumption|].
  intros ds0 j i d0 d1 d2 Hd0 Hj Hi dt.
  assert (ds0 = ds) by congruence; subst ds0.
  pose proof (selected_backside L f ds idxs a j i (d0, d1, d2) Ha Hj Hi)
    as Hxj.
  rewrite (Hcol _ _ Hxj).
  change (FlatSpec.ray_dt L f (d0, d1, d2)) with dt.
  change (Vec.normal_of f) with (zx, zy, zz).
  eexists; split; [reflexivity|]. split; [|split].
  - intros H. rewrite (leb_true_ltb_false H). reflexivity.
  - intros H. rewrite H. reflexivity.
  - intros _ H. rewrite H. reflexivity.
Qed.

(** ** Finite flat surfaces *)

Section FiniteFacts.
Import GeometryManager Vec FlatSpec.
Local Open Scope float_scope.

Variable L : Lib.t.

Lemma nth_error_zip_with_gen {A B C} (f : A -> B -> C) l l' i :
  nth_error (zip_with f l l') i =
  match nth_error l i, nth_error l' i with
  | Some a, Some b => Some (f a b)
  | _, _ => None
  end.
Proof.
  revert l l'; induction i as [|i IH]; intros [|x t] [|y t']; simpl;
    try reflexivity.
  - destruct (nth_error t i); reflexivity.
  - apply IH.
Qed.

Lemma item_zip_with_inv {A B C} (f : A -> B -> C) l l' i c :
  length l' = length l ->
  item (zip_with f l l') i = Ok c ->
  exists a b, item l i = Ok a /\ item l' i = Ok b /\ c = f a b.
Proof.
  intros Hlen. unfold item.
  rewrite zip_with_length by assumption. rewrite Hlen.
  destruct (norm_index (length l) i) as [j|e]; simpl; [|discriminate].
  rewrite nth_error_zip_with_gen.
  destruct (nth_error l j) as [a|]; [|discriminate].
  destruct (nth_error l' j) as [b|]; [|discriminate].
  intros H; inversion H; subst. eauto.
Qed.

(** Selecting columns of a column-wise combination is combining the
    selected columns. *)
Lemma take_zip_with_inv {A B C} (f : A -> B -> C) l l' idxs r :
  length l' = length l ->
  take (zip_with f l l') idxs = Ok r ->
  exists x y, take l idxs = Ok x /\ take l' idxs = Ok y /\
              r = zip_with f x y.
Proof.
  intros Hlen. unfold take.
  revert r; induction idxs as [|i t IH]; simpl; intros r H.
  - inversion H; subst. exists [], []. auto.
  - inv_bind H. inv_bind H. inversion H; subst; clear H.
    destruct (item_zip_with_inv f l l' i _ Hlen Ha) as (x & y & Hx & Hy & ->).
    destruct (IH _ Ha0) as (xs & ys & Hxs & Hys & ->).
    rewrite Hx, Hy, Hxs, Hys; simpl.
    exists (x :: xs), (y :: ys). auto.
Qed.

Lemma finite_find_intersections_run f b self vs ds m :
  RayBundle._vertices b = Some vs ->
  RayBundle._directions b = Some ds ->
  length ds = length vs ->
  Lib.inv L f = Ok m ->
  let params := zip_with (ray_distance L f) vs ds in
  FiniteFlatGM.find_intersections L f b self =
  Ok (params,
      mk (Some f) (Some b) None
         (Some (BMask (map (fun d => 0 <? ray_dt L f d) ds)))
         (_idxs self) (Some (points vs params ds))
         (Some (map (apply4 L m) (points vs params ds)))).
Proof.
  intros Hv Hd Hlen Hm params.
  unfold FiniteFlatGM.find_intersections.
  rewrite (flat_find_intersections_run L f b self vs ds Hv Hd Hlen); simpl.
  unfold RayBundle.get_vertices, RayBundle.get_directions.
  rewrite Hv, Hd; simpl. rewrite Hm; simpl. reflexivity.
Qed.

Lemma finite_find_intersections_inv f b self r s :
  FiniteFlatGM.find_intersections L f b self = Ok (r, s) ->
  exists vs ds m,
    RayBundle._vertices b = Some vs /\
    RayBundle._directions b = Some ds /\
    length ds = length vs /\ Lib.inv L f = Ok m.
Proof.
  unfold FiniteFlatGM.find_intersections. intros H.
  destruct (FlatGeometryManager.find_intersections L f b self)
    as [[r0 s0]|] eqn:E; simpl in H; [|discriminate].
  destruct (flat_find_intersections_inv L f b self _ _ E)
    as (vs & ds & Hv & Hd & Hlen).
  rewrite (flat_find_intersections_run L f b self vs ds Hv Hd Hlen) in E.
  inversion E; subst r0 s0; clear E. simpl in H.
  unfold RayBundle.get_vertices, RayBundle.get_directions in H.
  rewrite Hv, Hd in H; simpl in H.
  destruct (Lib.inv L f) as [m|] eqn:Em; simpl in H; [|discriminate].
  exists vs, ds, m. auto.
Qed.

Lemma points_length (vs : list (vec3 float)) ps ds :
  length ps = length vs -> length ds = length vs ->
  length (points vs ps ds) = length vs.
Proof.
  intros Hp Hd. unfold points.
  rewrite zip_with_length; [reflexivity|].
  rewrite zip_with_length; congruence.
Qed.

End FiniteFacts.

(** C4.  Whenever the frame can be inverted, the finite manager returns the
    distances of the infinite one; and when the finite manager has selected
    [idxs], the infinite manager run on the same input selects them too and
    both report the same global points, column [j] being
    [vertex + t * direction] of the ray [idxs[j]]. *)
Theorem finite_flat_agrees_with_flat
    (L : Lib.t) (f : frame) (b : RayBundle.t)
    (self : GeometryManager.state) (idxs : list Z) :
  (forall m params t1,
      Lib.inv L f = Ok m ->
      FlatGeometryManager.find_intersections L f b self = Ok (params, t1) ->
      exists s1, FiniteFlatGM.find_intersections L f b self
                 = Ok (params, s1)) /\
  (forall params s1 u s2,
      FiniteFlatGM.find_intersections L f b self = Ok (params, s1) ->
      FiniteFlatGM.select_rays idxs s1 = Ok (u, s2) ->
      exists t1 t2 g,
        FlatGeometryManager.find_intersections L f b self = Ok (params, t1) /\
        FlatGeometryManager.select_rays idxs t1 = Ok (tt, t2) /\
        FlatGeometryManager.get_intersection_points_global s2 = Ok (g, s2) /\
        FlatGeometryManager.get_intersection_points_global t2 = Ok (g, t2) /\
        length g = length idxs /\
        forall vs ds j i v t d,
          RayBundle._vertices b = Some vs ->
          RayBundle._directions b = Some ds ->
          nth_error idxs j = Some i ->
          item vs i = Ok v -> item params i = Ok t -> item ds i = Ok d ->
          nth_error g j = Some (FlatSpec.hit_point v t d)).
Proof.
  split.
  - intros m params t1 Hm Hflat.
    destruct (flat_find_intersections_inv L f b self _ _ Hflat)
      as (vs & ds & Hv & Hd & Hlen).
    rewrite (flat_find_intersections_run L f b self vs ds Hv Hd Hlen)
      in Hflat.
    inversion Hflat; subst params t1; clear Hflat.
    eexists.
    apply (finite_find_intersections_run L f b self vs ds m Hv Hd Hlen Hm).
  - intros params s1 u s2 Hfind Hsel.
    destruct (finite_find_intersections_inv L f b self _ _ Hfind)
      as (vs & ds & m & Hv & Hd & Hlen & Hm).
    rewrite (finite_find_intersections_run L f b self vs ds m Hv Hd Hlen Hm)
      in Hfind.
    inversion Hfind; subst params s1; clear Hfind.
    set (params := Vec.zip_with (FlatSpec.ray_distance L f) vs ds) in *.
    assert (Hpl : length params = length vs)
      by (apply zip_with_length; assumption).
    unfold FiniteFlatGM.select_rays in Hsel; simpl in Hsel.
    inv_bind Hsel. inv_bind Hsel.
    inversion Hsel; subst s2; clear Hsel.
    unfold Vec.points in Ha0.
    apply take_zip_with_inv in Ha0;
      [|rewrite zip_with_length; congruence].
    destruct Ha0 as (v & y & Htv & Hty & ->).
    apply take_zip_with_inv in Hty; [|congruence].
    destruct Hty as (p & d & Htp & Htd & ->).
    do 3 eexists.
    split; [apply (flat_find_intersections_run L f b self vs ds Hv Hd Hlen)|].
    split.
    { unfold FlatGeometryManager.select_rays,
        RayBundle.get_vertices, RayBundle.get_directions; simpl.
      simpl in Ha. rewrite Ha; simpl. rewrite Hv; simpl. rewrite Htv; simpl.
      rewrite Hd; simpl. rewrite Htd; simpl.
      fold params. rewrite Htp; simpl. reflexivity. }
    split; [reflexivity|]. split; [reflexivity|].
    assert (Lv : length v = length idxs) by (eapply take_length; eassumption).
    assert (Lp : length p = length idxs) by (eapply take_length; eassumption).
    assert (Ld : length d = length idxs) by (eapply take_length; eassumption).
    split.
    { fold (Vec.points v p d). rewrite points_length; congruence. }
    intros vs0 ds0 j i vi ti di Hv0 Hd0 Hj Hvi Hti Hdi.
    assert (vs0 = vs) by congruence. assert (ds0 = ds) by congruence.
    subst vs0 ds0.
    destruct (take_nth _ _ _ j i Htv Hj) as (v' & Hv' & Hnv).
    destruct (take_nth _ _ _ j i Htp Hj) as (p' & Hp' & Hnp).
    destruct (take_nth _ _ _ j i Htd Hj) as (d' & Hd' & Hnd).
    assert (v' = vi) by congruence. assert (p' = ti) by congruence.
    assert (d' = di) by congruence. subst v' p' d'.
    unfold FlatSpec.hit_point.
    apply nth_error_zip_with; [assumption|].
    apply nth_error_zip_with; assumption.
Qed.

Section PlateFacts.
Import GeometryManager Vec FlatSpec.
Local Open Scope float_scope.

Variable L : Lib.t.

Lemma nth_error_local (m : frame) vs ps ds i v t d :
  nth_error vs i = Some v -> nth_error ps i = Some t ->
  nth_error ds i = Some d ->
  nth_error (map (apply4 L m) (points vs ps ds)) i
  = Some (local_point L m v t d).
Proof.
  intros Hv Hp Hd. rewrite nth_error_map. unfold points.
  rewrite (nth_error_zip_with add3 vs _ i Hv
             (nth_error_zip_with scale3 ps ds i Hp Hd)).
  reflexivity.
Qed.

(** Both plates run the finite-flat computation and then overwrite the
    distances of the rays that their boundary test flags. *)
Lemma rect_find_intersections_run hd f b self vs ds m :
  RayBundle._vertices b = Some vs ->
  RayBundle._directions b = Some ds ->
  length ds = length vs ->
  Lib.inv L f = Ok m ->
  let flat := zip_with (ray_distance L f) vs ds in
  exists s,
    RectPlateGM.find_intersections L hd f b self =
    Ok (mask_fill flat
          (map (RectPlateGM.outside hd)
               (map (apply4 L m) (points vs flat ds))) infinity, s) /\
    _local s = None.
Proof.
  intros Hv Hd Hlen Hm flat.
  unfold RectPlateGM.find_intersections.
  rewrite (finite_find_intersections_run L f b self vs ds m Hv Hd Hlen Hm);
    simpl.
  fold flat.
  assert (Hfl : length flat = length vs)
    by (apply zip_with_length; assumption).
  rewrite length_map, points_length, Hfl, Nat.eqb_refl by assumption.
  simpl. eexists; split; reflexivity.
Qed.

Lemma round_find_intersections_run R R2 f b self vs ds m :
  RayBundle._vertices b = Some vs ->
  RayBundle._directions b = Some ds ->
  length ds = length vs ->
  Lib.inv L f = Ok m ->
  Lib.square L R = Ok R2 ->
  let flat := zip_with (ray_distance L f) vs ds in
  exists s,
    RoundPlateGM.find_intersections L R f b self =
    Ok (mask_fill flat
          (map (RoundPlateGM.outside R2)
               (map (apply4 L m) (points vs flat ds))) infinity, s) /\
    _local s = None.
Proof.
  intros Hv Hd Hlen Hm HR flat.
  unfold RoundPlateGM.find_intersections.
  rewrite (finite_find_intersections_run L f b self vs ds m Hv Hd Hlen Hm);
    simpl.
  rewrite HR; simpl.
  fold flat.
  assert (Hfl : length flat = length vs)
    by (apply zip_with_length; assumption).
  rewrite length_map, points_length, Hfl, Nat.eqb_refl by assumption.
  simpl. eexists; split; reflexivity.
Qed.

(** When [self._R**2] raises, the round plate raises after the finite-flat
    computation has run. *)
Lemma round_find_intersections_raise R e f b self vs ds m :
  RayBundle._vertices b = Some vs ->
  RayBundle._directions b = Some ds ->
  length ds = length vs ->
  Lib.inv L f = Ok m ->
  Lib.square L R = Raise e ->
  RoundPlateGM.find_intersections L R f b self = Raise e.
Proof.
  intros Hv Hd Hlen Hm HR.
  unfold RoundPlateGM.find_intersections.
  rewrite (finite_find_intersections_run L f b self vs ds m Hv Hd Hlen Hm);
    simpl.
  rewrite HR; reflexivity.
Qed.

(** One cell of a trimmed distance array. *)
Lemma nth_error_trimmed (test : vec4 float -> bool) (m : frame)
    (flat : list float) vs ds i v t d :
  nth_error vs i = Some v -> nth_error flat i = Some t ->
  nth_error ds i = Some d ->
  nth_error
    (mask_fill flat (map test (map (apply4 L m) (points vs flat ds)))
               infinity) i
  = Some (if test (local_point L m v t d) then infinity else t).
Proof.
  intros Hv Hp Hd.
  apply nth_error_mask_fill; [assumption|].
  rewrite nth_error_map, (nth_error_local m vs flat ds i v t d Hv Hp Hd).
  reflexivity.
Qed.

End PlateFacts.

(** C2.  Let the finite-flat computation succeed with the distances
    [flat], and let [(r0, r1, r2, r3)] be the rows of the inverse of the
    frame.  For the ray [i] with vertex [(v0,v1,v2)], direction
    [(d0,d1,d2)] and distance [t], the local coordinates are
    [x = r0 . g] and [y = r1 . g] for the homogeneous hit point
    [g = (v0 + t*d0, v1 + t*d1, v2 + t*d2, 1)].  The rectangular plate
    with half extents [(hw, hh)] returns an array of the same length in
    which the ray has [+inf] when [|x| > hw] or [|y| > hh] and keeps [t]
    otherwise, rays on the edge included.  The round plate of radius [R]
    raises what [R**2] raises; when [R**2] is [R2] the ray has [+inf] when
    [x*x + y*y > R2] and keeps [t] otherwise, rays on the rim included.
    Both discard the local coordinates. *)
Theorem plates_trim_rays_outside_boundary
    (L : Lib.t) (f : frame) (b : RayBundle.t)
    (self s0 : GeometryManager.state) (flat : list float) :
  FiniteFlatGM.find_intersections L f b self = Ok (flat, s0) ->
  exists (r0 r1 r2 r3 : vec4 float) vs ds,
    Lib.inv L f = Ok (r0, r1, r2, r3) /\
    RayBundle._vertices b = Some vs /\ RayBundle._directions b = Some ds /\
    (forall hw hh : float,
      exists r s,
        RectPlateGM.find_intersections L (hw, hh) f b self = Ok (r, s) /\
        length r = length flat /\ GeometryManager._local s = None /\
        forall i v0 v1 v2 t d0 d1 d2,
          nth_error vs i = Some (v0, v1, v2) -> nth_error flat i = Some t ->
          nth_error ds i = Some (d0, d1, d2) ->
          let g := (v0 + t * d0, v1 + t * d1, v2 + t * d2, 1)%float in
          let x := Lib.dot_hom L r0 g in
          let y := Lib.dot_hom L r1 g in
          ((hw <? abs x)%float = true \/ (hh <? abs y)%float = true ->
           nth_error r i = Some infinity) /\
          ((hw <? abs x)%float = false -> (hh <? abs y)%float = false ->
           nth_error r i = Some t) /\
          (abs x = hw /\ (hh <? abs y)%float = false \/
           abs y = hh /\ (hw <? abs x)%float = false ->
           nth_error r i = Some t)) /\
    (forall R : float,
      (forall e, Lib.square L R = Raise e ->
         RoundPlateGM.find_intersections L R f b self = Raise e) /\
      (forall R2, Lib.square L R = Ok R2 ->
       exists r s,
        RoundPlateGM.find_intersections L R f b self = Ok (r, s) /\
        length r = length flat /\ GeometryManager._local s = None /\
        forall i v0 v1 v2 t d0 d1 d2,
          nth_error vs i = Some (v0, v1, v2) -> nth_error flat i = Some t ->
          nth_error ds i = Some (d0, d1, d2) ->
          let g := (v0 + t * d0, v1 + t * d1, v2 + t * d2, 1)%float in
          let x := Lib.dot_hom L r0 g in
          let y := Lib.dot_hom L r1 g in
          ((R2 <? x * x + y * y)%float = true ->
           nth_error r i = Some infinity) /\
          ((R2 <? x * x + y * y)%float = false ->
           nth_error r i = Some t) /\
          ((x * x + y * y)%float = R2 ->
           nth_error r i = Some t))).
Proof.
  intros Hfin.
  destruct (finite_find_intersections_inv L f b self _ _ Hfin)
    as (vs & ds & m & Hv & Hd & Hlen & Hm).
  rewrite (finite_find_intersections_run L f b self vs ds m Hv Hd Hlen Hm)
    in Hfin.
  inversion Hfin; subst flat s0; clear Hfin.
  destruct m as [[[r0 r1] r2] r3].
  exists r0, r1, r2, r3, vs, ds. repeat (split; [assumption|]). split.
  - intros hw hh.
    destruct (rect_find_intersections_run L (hw, hh) f b self vs ds _
                Hv Hd Hlen Hm) as (s & Hrun & Hloc).
    eexists; exists s. split; [exact Hrun|].
    split; [apply mask_fill_length|]. split; [assumption|].
    intros i v0 v1 v2 t d0 d1 d2 Hiv Hit Hid g x y.
    rewrite (nth_error_trimmed L (RectPlateGM.outside (hw, hh)) _ _ vs ds i
               _ _ _ Hiv Hit Hid).
    change (RectPlateGM.outside (hw, hh)
              (FlatSpec.local_point L (r0, r1, r2, r3) (v0, v1, v2) t
                 (d0, d1, d2)))
      with ((hw <? abs x) || (hh <? abs y))%float.
    split; [|split].
    + intros [H | H]; rewrite H; [|rewrite orb_true_r]; reflexivity.
    + intros H1 H2; rewrite H1, H2; reflexivity.
    + intros [[E H] | [E H]]; rewrite H; rewrite <- E, ltb_irrefl;
        reflexivity.
  - intros R. split.
    { intros e HR.
      exact (round_find_intersections_raise L R e f b self vs ds _
               Hv Hd Hlen Hm HR). }
    intros R2 HR.
    destruct (round_find_intersections_run L R R2 f b self vs ds _
                Hv Hd Hlen Hm HR) as (s & Hrun & Hloc).
    eexists; exists s. split; [exact Hrun|].
    split; [apply mask_fill_length|]. split; [assumption|].
    intros i v0 v1 v2 t d0 d1 d2 Hiv Hit Hid g x y.
    rewrite (nth_error_trimmed L (RoundPlateGM.outside R2) _ _ vs ds i
               _ _ _ Hiv Hit Hid).
    change (RoundPlateGM.outside R2
              (FlatSpec.local_point L (r0, r1, r2, r3) (v0, v1, v2) t
                 (d0, d1, d2)))
      with (R2 <? x * x + y * y)%float.
    split; [|split].
    + intros H; rewrite H; reflexivity.
    + intros H; rewrite H; reflexivity.
    + intros E; rewrite E, ltb_irrefl; reflexivity.
Qed.

(** ** Plate constructors *)

(** C8.  A rectangular plate with a width or a height that is not positive,
    and a round plate with a radius that is not positive, cannot be
    constructed: the constructor raises [ValueError] and no instance
    exists.  With positive sizes the constructor returns a plate holding
    half the width and half the height, or the radius. *)
Theorem plate_constructors_validate_sizes :
  (forall width height : float,
      (width <=? 0)%float = true \/ (height <=? 0)%float = true ->
      RectPlateGM.init width height = Raise ValueError) /\
  (forall width height : float,
      (0 <? width)%float = true -> (0 <? height)%float = true ->
      RectPlateGM.init width height =
      Ok (RectPlateGM.mk_plate (width / 2, height / 2)%float
                               GeometryManager.fresh)) /\
  (forall R : float,
      (R <=? 0)%float = true -> RoundPlateGM.init R = Raise ValueError) /\
  (forall R : float,
      (0 <? R)%float = true ->
      RoundPlateGM.init R = Ok (RoundPlateGM.mk_plate R GeometryManager.fresh)).
Proof.
  unfold RectPlateGM.init, RoundPlateGM.init.
  split; [|split; [|split]].
  - intros w h [H | H]; rewrite H; [reflexivity|].
    destruct (w <=? 0)%float; reflexivity.
  - intros w h Hw Hh.
    rewrite (ltb_true_leb_false Hw), (ltb_true_leb_false Hh). reflexivity.
  - intros R H; rewrite H; reflexivity.
  - intros R H. rewrite (ltb_true_leb_false H). reflexivity.
Qed.

(** ** Rotations *)

Ltac unfold_exact :=
  cbv [SpatialGeometry.rotation_matrix SpatialGeometry.mmul
       SpatialGeometry.madd SpatialGeometry.mscale SpatialGeometry.outer
       SpatialGeometry.eye3 SpatialGeometry.row_scale SpatialGeometry.row_add
       SpatialGeometry.transpose SpatialGeometry.dot SpatialGeometry.mulv
       SpatialGeometry.exact SpatialGeometry.zero SpatialGeometry.one
       SpatialGeometry.add SpatialGeometry.sub SpatialGeometry.mul
       SpatialGeometry.opp].

Ltac split_cells :=
  repeat match goal with
         | |- (_, _) = (_, _) => apply f_equal2
         end.

Section RotationFacts.
Import SpatialGeometry.
Local Open Scope R_scope.

Lemma unit_norm_dot (a : vec3 R) : norm a = 1 -> dot exact a a = 1.
Proof.
  unfold norm. intros H.
  assert (Hpos : 0 <= dot exact a a).
  { destruct a as [[a0 a1] a2]; unfold_exact. nra. }
  rewrite <- (sqrt_sqrt _ Hpos), H. ring.
Qed.

Lemma rotation_orthogonal (a0 a1 a2 s c : R) :
  a0 * a0 + a1 * a1 + a2 * a2 = 1 -> s * s + c * c = 1 ->
  let m := rotation_matrix exact (a0, a1, a2) s c in
  mmul exact m (transpose m) = eye3 exact.
Proof.
  intros Ha Hsc m. unfold m. unfold_exact.
  split_cells; nsatz.
Qed.

End RotationFacts.

Section RotationNorm.
Import SpatialGeometry.
Local Open Scope R_scope.

Lemma rotation_isometry (a0 a1 a2 s c x0 x1 x2 : R) :
  a0 * a0 + a1 * a1 + a2 * a2 = 1 -> s * s + c * c = 1 ->
  let m := rotation_matrix exact (a0, a1, a2) s c in
  dot exact (mulv exact m (x0, x1, x2)) (mulv exact m (x0, x1, x2))
  = dot exact (x0, x1, x2) (x0, x1, x2).
Proof.
  intros Ha Hsc m. unfold m. unfold_exact. nsatz.
Qed.

(** [generate_transform] lays the rotation it is given next to the
    translation, over any scalars. *)
Lemma generate_transform_run {T} (o : ops T) (axis : vec3 T) (angle : T)
    (translation : vec3 T) :
  match general_axis_rotation o axis angle with
  | Ok rot =>
      exists t,
        generate_transform o axis angle translation = Ok t /\
        rotation_block t = rot /\
        translation_column t = translation /\
        bottom_row t = (zero o, zero o, zero o, one o)
  | Raise e => generate_transform o axis angle translation = Raise e
  end.
Proof.
  unfold generate_transform.
  destruct (general_axis_rotation o axis angle) as [rot|e]; simpl;
    [|reflexivity].
  destruct rot as [[[[a b] c] [[d e] g]] [[h i] j]].
  destruct translation as [[t0 t1] t2].
  eexists; split; [reflexivity|]. repeat split.
Qed.

End RotationNorm.

(** C9.  Whenever [general_axis_rotation] returns a matrix [rot],
    [generate_transform] returns the 4-by-4 matrix with [rot] as its
    top-left block, the translation as its last column and [(0,0,0,1)] as
    its last row, and when [general_axis_rotation] raises, so does
    [generate_transform]; it raises what [math.sin] or [math.cos] raise.
    Evaluated in exact real arithmetic on a unit axis, the formula of
    [general_axis_rotation] gives a matrix whose product with its transpose
    is the identity and which preserves the Euclidean norm of every
    vector. *)
Theorem rotation_orthonormal_and_transform_homogeneous :
  (forall (T : Type) (o : SpatialGeometry.ops T) (axis : vec3 T) (angle : T)
          (translation : vec3 T),
      (forall rot, SpatialGeometry.general_axis_rotation o axis angle = Ok rot ->
         exists t,
           SpatialGeometry.generate_transform o axis angle translation = Ok t /\
           SpatialGeometry.rotation_block t = rot /\
           SpatialGeometry.translation_column t = translation /\
           SpatialGeometry.bottom_row t
           = (SpatialGeometry.zero o, SpatialGeometry.zero o,
              SpatialGeometry.zero o, SpatialGeometry.one o)) /\
      (forall e, SpatialGeometry.general_axis_rotation o axis angle = Raise e ->
         SpatialGeometry.generate_transform o axis angle translation
         = Raise e)) /\
  (forall (sin cos : float -> result float) (axis : vec3 float)
          (angle : float) (e : exn),
      sin angle = Raise e \/ (exists s, sin angle = Ok s) /\ cos angle = Raise e ->
      SpatialGeometry.general_axis_rotation
        (SpatialGeometry.binary64 sin cos) axis angle = Raise e) /\
  (forall (sin cos : float -> result float) (a0 a1 a2 angle s c : float),
      sin angle = Ok s -> cos angle = Ok c ->
      SpatialGeometry.general_axis_rotation
        (SpatialGeometry.binary64 sin cos) (a0, a1, a2) angle
      = Ok ((a0 * a0 * (1 - c) + 1 * c + 0 * s,
             a0 * a1 * (1 - c) + 0 * c + - a2 * s,
             a0 * a2 * (1 - c) + 0 * c + a1 * s),
            (a1 * a0 * (1 - c) + 0 * c + a2 * s,
             a1 * a1 * (1 - c) + 1 * c + 0 * s,
             a1 * a2 * (1 - c) + 0 * c + - a0 * s),
            (a2 * a0 * (1 - c) + 0 * c + - a1 * s,
             a2 * a1 * (1 - c) + 0 * c + a0 * s,
             a2 * a2 * (1 - c) + 1 * c + 0 * s))%float) /\
  (forall (axis : vec3 R) (angle : R),
      SpatialGeometry.norm axis = 1%R ->
      exists rot,
        SpatialGeometry.general_axis_rotation SpatialGeometry.exact axis angle
        = Ok rot /\
        SpatialGeometry.mmul SpatialGeometry.exact rot
          (SpatialGeometry.transpose rot)
        = SpatialGeometry.eye3 SpatialGeometry.exact /\
        forall x : vec3 R,
          SpatialGeometry.norm (SpatialGeometry.mulv SpatialGeometry.exact rot x)
          = SpatialGeometry.norm x).
Proof.
  split; [|split; [|split]].
  - intros T o axis angle translation.
    pose proof (generate_transform_run o axis angle translation) as H.
    split.
    + intros rot Hrot. rewrite Hrot in H. exact H.
    + intros e Hrot. rewrite Hrot in H. exact H.
  - intros sin cos axis angle e [H | [[s Hs] H]];
      unfold SpatialGeometry.general_axis_rotation; simpl.
    + rewrite H. reflexivity.
    + rewrite Hs; simpl. rewrite H. reflexivity.
  - intros sin cos a0 a1 a2 angle s c Hs Hc.
    unfold SpatialGeometry.general_axis_rotation; simpl.
    rewrite Hs; simpl. rewrite Hc; simpl. reflexivity.
  - intros axis angle Hunit.
    apply unit_norm_dot in Hunit.
    destruct axis as [[a0 a1] a2].
    assert (Ha : (a0 * a0 + a1 * a1 + a2 * a2 = 1)%R) by exact Hunit.
    assert (Hsc : (Rtrigo_def.sin angle * Rtrigo_def.sin angle
                   + Rtrigo_def.cos angle * Rtrigo_def.cos angle = 1)%R).
    { pose proof (sin2_cos2 angle) as H. unfold Rsqr in H. exact H. }
    eexists. split; [reflexivity|]. split.
    + exact (rotation_orthogonal a0 a1 a2 _ _ Ha Hsc).
    + intros [[x0 x1] x2]. unfold SpatialGeometry.norm. f_equal.
      exact (rotation_isometry a0 a1 a2 _ _ x0 x1 x2 Ha Hsc).
Qed.

(** ** Concrete runs *)

Section Runs.
Import GeometryManager Samples.
Local Open Scope float_scope.

Example run_flat_find_intersections :
  option_map fst
    (match FlatGeometryManager.find_intersections plain xy_frame four_rays
             fresh
     with Ok r => Some r | Raise _ => None end)
  = Some [1; 2; infinity; infinity].
Proof. vm_compute. reflexivity. Qed.

Example run_flat_find_intersections_tilted :
  option_map fst
    (match FlatGeometryManager.find_intersections plain tilted_frame
             tilted_rays fresh
     with Ok r => Some r | Raise _ => None end)
  = Some [3; 2; 2; infinity; infinity; 1].
Proof. vm_compute. reflexivity. Qed.

Example run_flat_normals :
  (r <- FlatGeometryManager.find_intersections plain xy_frame four_rays
          fresh ;;
   r <- FlatGeometryManager.select_rays [0; 1]%Z (snd r) ;;
   r <- FlatGeometryManager.get_normals (snd r) ;;
   Ok (fst r))
  = Ok [(0, 0, 1); (-0, -0, -1)].
Proof. vm_compute. reflexivity. Qed.

Example run_flat_normals_tilted :
  (r <- FlatGeometryManager.find_intersections plain tilted_frame
          tilted_rays fresh ;;
   r <- FlatGeometryManager.select_rays [1; 0; -1]%Z (snd r) ;;
   r <- FlatGeometryManager.get_normals (snd r) ;;
   Ok (fst r))
  = Ok [(-1, -0, -0); (1, 0, 0); (1, 0, 0)].
Proof. vm_compute. reflexivity. Qed.

Example run_flat_points :
  (r <- FlatGeometryManager.find_intersections plain xy_frame four_rays
          fresh ;;
   r <- FlatGeometryManager.select_rays [1; -4]%Z (snd r) ;;
   r <- FlatGeometryManager.get_intersection_points_global (snd r) ;;
   Ok (fst r))
  = Ok [(1, 0, 0); (0, 0, 0)].
Proof. vm_compute. reflexivity. Qed.

Example run_flat_points_tilted :
  (r <- FlatGeometryManager.find_intersections plain tilted_frame
          tilted_rays fresh ;;
   r <- FlatGeometryManager.select_rays [0; 1; 2; -1]%Z (snd r) ;;
   r <- FlatGeometryManager.get_intersection_points_global (snd r) ;;
   Ok (fst r))
  = Ok [(2, -1, 3); (2, 0, 3); (2, 0.5, 6); (2, -0.25, 4.75)].
Proof. vm_compute. reflexivity. Qed.

(** A 2-by-4 rectangle keeps the hits at [(1,0)] (on its edge) and
    [(0.5,1.75)] and drops the hit at [(1.5,0)]. *)
Example run_rect_plate :
  (p <- RectPlateGM.init 2 4 ;;
   r <- RectPlateGM.find_intersections plain
          (RectPlateGM._half_dims p) xy_frame falling_rays
          (RectPlateGM.gm p) ;;
   Ok (fst r))
  = Ok [1; infinity; 1; 1].
Proof. vm_compute. reflexivity. Qed.

(** On the tilted frame the same rectangle keeps the hits at the local
    points [(0,0)], [(1,0)] and [(0.75,1.75)] and drops the one at
    [(1.5,3)]. *)
Example run_rect_plate_tilted :
  (p <- RectPlateGM.init 2 4 ;;
   r <- RectPlateGM.find_intersections plain
          (RectPlateGM._half_dims p) tilted_frame tilted_rays
          (RectPlateGM.gm p) ;;
   Ok (fst r))
  = Ok [3; 2; infinity; infinity; infinity; 1].
Proof. vm_compute. reflexivity. Qed.

(** A disk of radius 1 keeps the hit at [(1,0)] (on its rim) only. *)
Example run_round_plate :
  (p <- RoundPlateGM.init 1 ;;
   r <- RoundPlateGM.find_intersections plain
          (RoundPlateGM._R p) xy_frame falling_rays (RoundPlateGM.gm p) ;;
   Ok (fst r))
  = Ok [1; infinity; infinity; infinity].
Proof. vm_compute. reflexivity. Qed.

Example run_round_plate_tilted :
  (p <- RoundPlateGM.init 1 ;;
   r <- RoundPlateGM.find_intersections plain
          (RoundPlateGM._R p) tilted_frame tilted_rays (RoundPlateGM.gm p) ;;
   Ok (fst r))
  = Ok [3; 2; infinity; infinity; infinity; infinity].
Proof. vm_compute. reflexivity. Qed.

(** A radius whose square is too large for a Python float. *)
Example run_round_plate_overflow :
  (p <- RoundPlateGM.init 0x1p600 ;;
   r <- RoundPlateGM.find_intersections plain
          (RoundPlateGM._R p) tilted_frame tilted_rays (RoundPlateGM.gm p) ;;
   Ok (fst r))
  = Raise OverflowError.
Proof. vm_compute. reflexivity. Qed.

Example run_delete_rays :
  RayBundle.delete_rays four_rays [1; -1]%Z
  = Ok (RayBundle.mk (Some [(0, 0, 1); (0, 0, 1)])
                     (Some [(0, 0, -1); (1, 0, 0)])
                     (Some [1; 1]) (Some [0; 2]%Z) (Some [1; 1])).
Proof. vm_compute. reflexivity. Qed.

End Runs.

(** ** The properties at concrete inputs *)

Lemma flat_find_intersections_distances_witness :
  exists params s,
    FlatGeometryManager.find_intersections Samples.plain
      Samples.tilted_frame Samples.tilted_rays GeometryManager.fresh
    = Ok (params, s) /\
    nth_error params 0 = Some 3%float /\
    nth_error params 1 = Some 2%float /\
    nth_error params 3 = Some infinity /\
    nth_error params 4 = Some infinity /\
    nth_error params 5 = Some 1%float.
Proof.
  pose proof (flat_find_intersections_distances Samples.plain
                0 0 1 2 1 0 0 (-1) 0 1 0 3 0 0 0 1
                Samples.tilted_rays GeometryManager.fresh
                _ _ eq_refl eq_refl eq_refl) as H.
  cbv zeta in H.
  destruct H as (params & s & Hrun & _ & Hcols).
  exists params, s. split; [exact Hrun|].
  split; [|split; [|split; [|split]]].
  - destruct (Hcols 0%nat _ _ _ _ _ _ eq_refl eq_refl)
      as (t & Ht & _ & Hgt & _).
    rewrite Ht. f_equal. rewrite Hgt; vm_compute; reflexivity.
  - destruct (Hcols 1%nat _ _ _ _ _ _ eq_refl eq_refl)
      as (t & Ht & _ & Hgt & _).
    rewrite Ht. f_equal. rewrite Hgt; vm_compute; reflexivity.
  - destruct (Hcols 3%nat _ _ _ _ _ _ eq_refl eq_refl)
      as (t & Ht & Hle & _).
    rewrite Ht. f_equal. apply Hle. vm_compute. reflexivity.
  - destruct (Hcols 4%nat _ _ _ _ _ _ eq_refl eq_refl)
      as (t & Ht & _ & Hgt & _).
    rewrite Ht. f_equal. rewrite Hgt; vm_compute; reflexivity.
  - destruct (Hcols 5%nat _ _ _ _ _ _ eq_refl eq_refl)
      as (t & Ht & _ & Hgt & _).
    rewrite Ht. f_equal. rewrite Hgt; vm_compute; reflexivity.
Defined.

Lemma plates_trim_rays_outside_boundary_witness :
  (exists r s,
    RectPlateGM.find_intersections Samples.plain (1, 2)%float
      Samples.tilted_frame Samples.tilted_rays GeometryManager.fresh
    = Ok (r, s) /\
    nth_error r 0 = Some 3%float /\ nth_error r 1 = Some 2%float /\
    nth_error r 2 = Some infinity /\ nth_error r 5 = Some 1%float) /\
  (exists r s,
    RoundPlateGM.find_intersections Samples.plain 1%float
      Samples.tilted_frame Samples.tilted_rays GeometryManager.fresh
    = Ok (r, s) /\
    nth_error r 0 = Some 3%float /\ nth_error r 1 = Some 2%float /\
    nth_error r 2 = Some infinity /\ nth_error r 5 = Some infinity) /\
  RoundPlateGM.find_intersections Samples.plain 0x1p600%float
    Samples.tilted_frame Samples.tilted_rays GeometryManager.fresh
  = Raise OverflowError.
Proof.
  eassert (Hfin : FiniteFlatGM.find_intersections Samples.plain
                    Samples.tilted_frame Samples.tilted_rays
                    GeometryManager.fresh = Ok (_, _))
    by (vm_compute; reflexivity).
  destruct (plates_trim_rays_outside_boundary _ _ _ _ _ _ Hfin)
    as (r0 & r1 & r2 & r3 & vs & ds & Hm & Hv & Hd & Hrect & Hround).
  vm_compute in Hm, Hv, Hd.
  inversion Hm; subst r0 r1 r2 r3; inversion Hv; subst vs;
    inversion Hd; subst ds.
  split; [|split].
  - destruct (Hrect 1%float 2%float) as (r & s & Hrun & _ & _ & Hcols).
    exists r, s. split; [exact Hrun|].
    split; [|split; [|split]].
    + destruct (Hcols 0%nat _ _ _ _ _ _ _ eq_refl eq_refl eq_refl)
        as (_ & Hin & _).
      apply Hin; vm_compute; reflexivity.
    + destruct (Hcols 1%nat _ _ _ _ _ _ _ eq_refl eq_refl eq_refl)
        as (_ & _ & Hedge).
      apply Hedge. left. split; vm_compute; reflexivity.
    + destruct (Hcols 2%nat _ _ _ _ _ _ _ eq_refl eq_refl eq_refl)
        as (Hout & _ & _).
      apply Hout. left. vm_compute. reflexivity.
    + destruct (Hcols 5%nat _ _ _ _ _ _ _ eq_refl eq_refl eq_refl)
        as (_ & Hin & _).
      apply Hin; vm_compute; reflexivity.
  - destruct (Hround 1%float) as (_ & Hok).
    destruct (Hok 1%float eq_refl) as (r & s & Hrun & _ & _ & Hcols).
    exists r, s. split; [exact Hrun|].
    split; [|split; [|split]].
    + destruct (Hcols 0%nat _ _ _ _ _ _ _ eq_refl eq_refl eq_refl)
        as (_ & Hin & _).
      apply Hin; vm_compute; reflexivity.
    + destruct (Hcols 1%nat _ _ _ _ _ _ _ eq_refl eq_refl eq_refl)
        as (_ & _ & Hrim).
      apply Hrim; vm_compute; reflexivity.
    + destruct (Hcols 2%nat _ _ _ _ _ _ _ eq_refl eq_refl eq_refl)
        as (Hout & _ & _).
      apply Hout; vm_compute; reflexivity.
    + destruct (Hcols 5%nat _ _ _ _ _ _ _ eq_refl eq_refl eq_refl)
        as (Hout & _ & _).
      apply Hout; vm_compute; reflexivity.
  - destruct (Hround 0x1p600%float) as (Hraise & _).
    apply Hraise. vm_compute. reflexivity.
Defined.

Lemma flat_get_normals_orientation_witness :
  exists norms s,
    FlatGeometryManager.get_normals s = Ok (norms, s) /\
    nth_error norms 0 = Some (-1, -0, -0)%float /\
    nth_error norms 1 = Some (1, 0, 0)%float /\
    nth_error norms 2 = Some (1, 0, 0)%float.
Proof.
  eassert (Hfind : FlatGeometryManager.find_intersections Samples.plain
                     Samples.tilted_frame Samples.tilted_rays
                     GeometryManager.fresh = Ok (_, _))
    by (vm_compute; reflexivity).
  match type of Hfind with
  | _ = Ok (_, ?s1) =>
      eassert (Hsel : FlatGeometryManager.select_rays [1; 0; -1]%Z s1
                      = Ok (tt, _))
        by (vm_compute; reflexivity)
  end.
  pose proof (flat_get_normals_orientation Samples.plain
                0 0 1 2 1 0 0 (-1) 0 1 0 3 0 0 0 1
                _ _ _ _ _ _ _ Hfind Hsel) as H.
  cbv zeta in H.
  destruct H as (norms & Hrun & _ & Hcols).
  exists norms. eexists. split; [exact Hrun|]. split; [|split].
  - destruct (Hcols _ 0%nat 1%Z 1 0 0 eq_refl eq_refl eq_refl)%float
      as (c & Hc & _ & Hback & _).
    rewrite Hc. f_equal. rewrite Hback; vm_compute; reflexivity.
  - destruct (Hcols _ 1%nat 0%Z (-1) 0 0 eq_refl eq_refl eq_refl)%float
      as (c & Hc & Hfront & _).
    rewrite Hc. f_equal. apply Hfront. vm_compute. reflexivity.
  - destruct (Hcols _ 2%nat (-1)%Z (-2) 0 0 eq_refl eq_refl eq_refl)%float
      as (c & Hc & Hfront & _).
    rewrite Hc. f_equal. apply Hfront. vm_compute. reflexivity.
Defined.

Lemma finite_flat_agrees_with_flat_witness :
  exists g t2,
    FlatGeometryManager.get_intersection_points_global t2 = Ok (g, t2) /\
    nth_error g 0 = Some (2, 0, 3)%float.
Proof.
  eassert (Hfind : FiniteFlatGM.find_intersections Samples.plain
                     Samples.tilted_frame Samples.tilted_rays
                     GeometryManager.fresh = Ok (_, _))
    by (vm_compute; reflexivity).
  match type of Hfind with
  | _ = Ok (_, ?s1) =>
      eassert (Hsel : FiniteFlatGM.select_rays [1; 0]%Z s1 = Ok (tt, _))
        by (vm_compute; reflexivity)
  end.
  destruct (finite_flat_agrees_with_flat Samples.plain
              Samples.tilted_frame Samples.tilted_rays GeometryManager.fresh
              [1; 0]%Z) as (_ & Hsame).
  destruct (Hsame _ _ _ _ Hfind Hsel)
    as (t1 & t2 & g & _ & _ & _ & Hg & _ & Hcols).
  exists g, t2. split; [exact Hg|].
  rewrite (Hcols _ _ 0%nat 1%Z (0, 0, 3)%float 2%float (1, 0, 0)%float
             eq_refl eq_refl eq_refl eq_refl eq_refl eq_refl).
  vm_compute. reflexivity.
Defined.

Lemma add_merges_attributes_present_on_both_witness :
  RayBundle._vertices (RayBundle.add Samples.falling_rays Samples.four_rays)
  = Some [(1, 0, 1); (1.5, 0, 1); (0.5, 1.75, 1); (0.75, 0.75, 1);
          (0, 0, 1); (1, 0, -2); (0, 0, 1); (0, 0, 1)]%float /\
  RayBundle._energy (RayBundle.add Samples.falling_rays Samples.four_rays)
  = None.
Proof.
  destruct (add_merges_attributes_present_on_both
              Samples.falling_rays Samples.four_rays)
    as ((Hboth & _) & _ & (_ & Hone) & _).
  split.
  - exact (Hboth _ _ eq_refl eq_refl).
  - apply Hone. left. reflexivity.
Defined.

Lemma empty_bund_is_identity_of_add_witness :
  RayBundle.add RayBundle.empty_bund Samples.four_rays = Samples.four_rays /\
  RayBundle.add Samples.four_rays RayBundle.empty_bund = Samples.four_rays.
Proof.
  destruct empty_bund_is_identity_of_add as (_ & _ & H).
  apply H. reflexivity.
Defined.

(** C6, as the claim has it, fails: with one selected index and an energy
    override of two cells the call returns a bundle of one vertex column and
    two energies. *)
Lemma inherit_accepts_mismatched_override :
  length [2; 3]%float <> length [0%Z] /\
  RayBundle.inherit Samples.four_rays (SelIdx [0%Z])
                    None None (Some [2; 3]%float) None None
  = Ok (RayBundle.mk (Some [(0, 0, 1)%float]) (Some [(0, 0, -1)%float])
                     (Some [2; 3]%float) (Some [0%Z]) (Some [1%float])).
Proof.
  split; [simpl; lia | vm_compute; reflexivity].
Qed.

Lemma inherit_stores_overrides_unchecked_witness :
  RayBundle.inherit Samples.four_rays (SelIdx [0%Z])
                    None None (Some [2; 3]%float) None None
  = Ok (RayBundle.mk (Some [(0, 0, 1)%float]) (Some [(0, 0, -1)%float])
                     (Some [2; 3]%float) (Some [0%Z]) (Some [1%float])).
Proof.
  eassert (H0 : RayBundle.inherit Samples.four_rays (SelIdx [0%Z])
                  None None None None None = Ok _)
    by (vm_compute; reflexivity).
  destruct (inherit_stores_overrides_unchecked
              Samples.four_rays [0%Z] None None (Some [2; 3]%float)
              None None H0) as (H & _).
  exact H.
Defined.

Lemma delete_rays_is_inherit_of_complement_witness :
  RayBundle.delete_rays Samples.four_rays [1; -1]%Z =
  RayBundle.inherit Samples.four_rays (SelIdx [0; 2]%Z)
                    None None None None None.
Proof.
  apply (@delete_rays_is_inherit_of_complement
           Samples.four_rays 4 [1; -1]%Z eq_refl).
  repeat constructor; unfold BundleSpec.valid_index; simpl; lia.
Defined.

Lemma plate_constructors_validate_sizes_witness :
  RectPlateGM.init 2 (-1) = Raise ValueError /\
  RectPlateGM.init 2 4 =
  Ok (RectPlateGM.mk_plate (2 / 2, 4 / 2)%float GeometryManager.fresh) /\
  RoundPlateGM.init 0 = Raise ValueError /\
  RoundPlateGM.init 1 = Ok (RoundPlateGM.mk_plate 1 GeometryManager.fresh).
Proof.
  destruct plate_constructors_validate_sizes as (Hbad & Hgood & Rbad & Rgood).
  split; [|split; [|split]].
  - apply Hbad. right. vm_compute. reflexivity.
  - apply Hgood; vm_compute; reflexivity.
  - apply Rbad. vm_compute. reflexivity.
  - apply Rgood. vm_compute. reflexivity.
Defined.

(** C9, as the claim has it, fails for the code as it runs.  The axis
    [(0,0,1)] has unit length and [math.sin], [math.cos] return the values
    above at the angle [3.0]; the matrix returned is
    [((c, -s, 0), (s, c, 0), (0, 0, 1))], and neither its first row nor its
    first column, the image of [(1,0,0)], has length one: as rational
    numbers [c*c + s*s] is not [1], and rounded product by product it is
    the binary64 number just below [1]. *)
Lemma rotation_in_binary64_is_not_orthonormal :
  exists r00 r01 r02 r10 r11 r12 r2,
    SpatialGeometry.general_axis_rotation Samples.at_3 (0, 0, 1)%float 3%float
    = Ok ((r00, r01, r02), (r10, r11, r12), r2) /\
    (0 * 0 + 0 * 0 + 1 * 1 = 1)%float /\
    ~ (SpatialGeometry.to_Q r00 * SpatialGeometry.to_Q r00
       + SpatialGeometry.to_Q r01 * SpatialGeometry.to_Q r01
       + SpatialGeometry.to_Q r02 * SpatialGeometry.to_Q r02 == 1)%Q /\
    ~ (SpatialGeometry.to_Q r00 * SpatialGeometry.to_Q r00
       + SpatialGeometry.to_Q r10 * SpatialGeometry.to_Q r10
       + SpatialGeometry.to_Q (snd (fst r2)) * SpatialGeometry.to_Q (snd (fst r2))
       == 1)%Q /\
    (r00 * r00 + r01 * r01 + r02 * r02)%float = 0x1.fffffffffffffp-1%float.
Proof.
  do 7 eexists.
  split; [vm_compute; reflexivity|].
  split; [vm_compute; reflexivity|].
  split; [|split].
  - intros H. apply Qeq_bool_iff in H. vm_compute in H. discriminate H.
  - intros H. apply Qeq_bool_iff in H. vm_compute in H. discriminate H.
  - vm_compute. reflexivity.
Qed.

Lemma rotation_orthonormal_and_transform_homogeneous_witness :
  (exists rot,
     SpatialGeometry.general_axis_rotation SpatialGeometry.exact
       (0, 0, 1)%R PI = Ok rot /\
     SpatialGeometry.mmul SpatialGeometry.exact rot
       (SpatialGeometry.transpose rot)
     = SpatialGeometry.eye3 SpatialGeometry.exact) /\
  (exists t,
     SpatialGeometry.generate_transform Samples.at_3
       (0, 0, 1)%float 3%float (1, 2, 3)%float = Ok t /\
     SpatialGeometry.translation_column t = (1, 2, 3)%float /\
     SpatialGeometry.bottom_row t = (0, 0, 0, 1)%float) /\
  SpatialGeometry.general_axis_rotation
    (SpatialGeometry.binary64 Samples.math_domain_error
                              Samples.math_domain_error)
    (0, 0, 1)%float infinity = Raise ValueError.
Proof.
  assert (Hunit : SpatialGeometry.norm (0, 0, 1)%R = 1%R).
  { unfold SpatialGeometry.norm; unfold_exact.
    replace (0 * 0 + 0 * 0 + 1 * 1)%R with 1%R by ring. apply sqrt_1. }
  destruct rotation_orthonormal_and_transform_homogeneous
    as (Hlay & Hraise & _ & Hexact).
  split; [|split].
  - destruct (Hexact (0, 0, 1)%R PI Hunit) as (rot & Hrot & Horth & _).
    exists rot. split; assumption.
  - eassert (Hrot : SpatialGeometry.general_axis_rotation Samples.at_3
                      (0, 0, 1)%float 3%float = Ok _)
      by (vm_compute; reflexivity).
    destruct (Hlay _ Samples.at_3 (0, 0, 1)%float 3%float (1, 2, 3)%float)
      as (Hok & _).
    destruct (Hok _ Hrot) as (t & Ht & _ & Hcol & Hrow).
    exists t. repeat split; assumption.
  - apply Hraise. left. reflexivity.
Defined.

(* ===================================================================== *)
(** * Part III.  Further properties of the code                           *)
(* ===================================================================== *)

Unset Implicit Arguments.

(** ** Index arrays that enumerate a range *)

Section RangeFacts.

Lemma norm_index_of_nat (n j : nat) :
  j < n -> norm_index n (Z.of_nat j) = Ok j.
Proof.
  intros H. unfold norm_index.
  replace (0 <=? Z.of_nat j)%Z with true by (symmetry; apply Z.leb_le; lia).
  replace (Z.of_nat j <? Z.of_nat n)%Z with true
    by (symmetry; apply Z.ltb_lt; lia).
  simpl. rewrite Nat2Z.id. reflexivity.
Qed.

(** Taking the columns [length pre .. length pre + length mid - 1]. *)
Lemma take_middle {A} (pre mid post : list A) :
  take (pre ++ mid ++ post)
       (map Z.of_nat (seq (length pre) (length mid))) = Ok mid.
Proof.
  unfold take. revert pre; induction mid as [|a mid IH]; intros pre;
    simpl; [reflexivity|].
  unfold item at 1.
  rewrite norm_index_of_nat by (rewrite !length_app; simpl; lia).
  simpl. rewrite nth_error_app2 by lia. rewrite Nat.sub_diag. simpl.
  specialize (IH (pre ++ [a])).
  rewrite <- app_assoc in IH. simpl in IH.
  rewrite length_app in IH. simpl in IH.
  rewrite Nat.add_1_r in IH. rewrite IH. reflexivity.
Qed.

Lemma take_arange {A} (l : list A) : take l (arange (length l)) = Ok l.
Proof.
  pose proof (take_middle [] l []) as H. simpl in H.
  rewrite app_nil_r in H. exact H.
Qed.

Lemma take_arange_app {A} (x y : list A) :
  take (x ++ y) (arange (length x)) = Ok x.
Proof. exact (take_middle [] x y). Qed.

Lemma take_tail_app {A} (x y : list A) :
  take (x ++ y) (map Z.of_nat (seq (length x) (length y))) = Ok y.
Proof.
  pose proof (take_middle x y []) as H. rewrite app_nil_r in H. exact H.
Qed.

Lemma existsb_Zeqb_In (z : Z) (l : list Z) :
  existsb (Z.eqb z) l = true <-> In z l.
Proof.
  rewrite existsb_exists. split.
  - intros (x & Hx & E). apply Z.eqb_eq in E. subst. assumption.
  - intros H. exists z. split; [assumption | apply Z.eqb_refl].
Qed.

Lemma position_of_nat (n j : nat) :
  BundleSpec.position n (Z.of_nat j) = Z.of_nat j.
Proof.
  unfold BundleSpec.position.
  destruct (Z.ltb_spec (Z.of_nat j) 0); [lia | reflexivity].
Qed.

Lemma filter_none {A} (f : A -> bool) (l : list A) :
  (forall x, In x l -> f x = false) -> filter f l = [].
Proof.
  induction l as [|a t IH]; simpl; intros H; [reflexivity|].
  rewrite (H a) by auto. apply IH. auto.
Qed.

Lemma filter_all {A} (f : A -> bool) (l : list A) :
  (forall x, In x l -> f x = true) -> filter f l = l.
Proof.
  induction l as [|a t IH]; simpl; intros H; [reflexivity|].
  rewrite (H a) by auto. f_equal. apply IH. auto.
Qed.

(** Removing the first [n] indices from [range(n + m)] leaves the last
    [m]. *)
Lemma complement_of_prefix (n m : nat) :
  BundleSpec.index_complement (n + m) (arange n)
  = map Z.of_nat (seq n m).
Proof.
  unfold BundleSpec.index_complement, arange.
  rewrite map_map.
  rewrite (map_ext (fun x => BundleSpec.position (n + m) (Z.of_nat x))
                   Z.of_nat) by (intros; apply position_of_nat).
  rewrite seq_app, map_app, filter_app. simpl.
  rewrite filter_none, filter_all; [reflexivity| |].
  - intros x Hx. apply in_map_iff in Hx. destruct Hx as (k & <- & Hk).
    apply in_seq in Hk.
    destruct (existsb (Z.eqb (Z.of_nat k)) (map Z.of_nat (seq 0 n))) eqn:E;
      [|reflexivity].
    apply existsb_Zeqb_In in E. apply in_map_iff in E.
    destruct E as (k' & E & Hk'). apply in_seq in Hk'. lia.
  - intros x Hx.
    apply (proj2 (existsb_Zeqb_In x _)) in Hx. rewrite Hx. reflexivity.
Qed.

End RangeFacts.

(** ** Ray bundles: merging, selecting and deleting *)

Section BundleAlgebra.
Import RayBundle BundleSpec RayBundleOps.

Lemma add_attr_assoc {A} (x y z : option (list A)) :
  add_attr (add_attr x y) z = add_attr x (add_attr y z).
Proof.
  destruct x, y, z; simpl; try reflexivity. rewrite app_assoc. reflexivity.
Qed.

Lemma inherit_attr_all {A} (x : option (list A)) :
  inherit_attr None x SelAll = Ok x.
Proof. destruct x; reflexivity. Qed.

Lemma inherit_attr_arange {A} (x : option (list A)) (n : nat) :
  width_is n x -> inherit_attr None x (SelIdx (arange n)) = Ok x.
Proof.
  destruct x as [u|]; simpl; intros H; [|reflexivity].
  rewrite <- (H u eq_refl), take_arange. reflexivity.
Qed.

Lemma inherit_attr_head {A} (x y : option (list A)) (n : nat) :
  hasattr x = hasattr y -> width_is n x ->
  inherit_attr None (add_attr x y) (SelIdx (arange n)) = Ok x.
Proof.
  destruct x as [u|], y as [v|]; simpl; intros E H;
    try discriminate; try reflexivity.
  rewrite <- (H u eq_refl), take_arange_app. reflexivity.
Qed.

Lemma inherit_attr_tail {A} (x y : option (list A)) (n m : nat) :
  hasattr x = hasattr y -> width_is n x -> width_is m y ->
  inherit_attr None (add_attr x y) (SelIdx (map Z.of_nat (seq n m))) = Ok y.
Proof.
  destruct x as [u|], y as [v|]; simpl; intros E Hx Hy;
    try discriminate; try reflexivity.
  rewrite <- (Hx u eq_refl), <- (Hy v eq_refl), take_tail_app. reflexivity.
Qed.

Lemma arange_valid (n m : nat) :
  Forall (valid_index (n + m)) (arange n).
Proof.
  apply Forall_forall. intros z Hz. unfold arange in Hz.
  apply in_map_iff in Hz. destruct Hz as (k & <- & Hk).
  apply in_seq in Hk. unfold valid_index. lia.
Qed.

Lemma num_rays_add (a b : t) :
  get_num_rays (add a b) =
  (n <- get_num_rays a ;; m <- get_num_rays b ;; Ok (n + m)).
Proof.
  unfold get_num_rays, add; simpl.
  destruct (_vertices a) as [x|], (_vertices b) as [y|]; simpl;
    try reflexivity.
  rewrite length_app. reflexivity.
Qed.

End BundleAlgebra.

(** X1.  Merging is associative: [(a + b) + c] and [a + (b + c)] are the
    same bundle, attribute for attribute. *)
Theorem add_is_associative (a b c : RayBundle.t) :
  RayBundle.add (RayBundle.add a b) c = RayBundle.add a (RayBundle.add b c).
Proof.
  unfold RayBundle.add; simpl. rewrite !add_attr_assoc. reflexivity.
Qed.

(** X2.  The ray count of a sum is the sum of the ray counts, and asking for
    it raises [AttributeError] as soon as one operand has no vertices. *)
Theorem get_num_rays_of_sum (a b : RayBundle.t) :
  RayBundle.get_num_rays (RayBundle.add a b) =
  (n <- RayBundle.get_num_rays a ;;
   m <- RayBundle.get_num_rays b ;; Ok (n + m)).
Proof. exact (num_rays_add a b). Qed.

(** X3.  [inherit] with the default selector and no overrides reproduces
    the bundle; so does [inherit] with the index array [0 .. n-1] on a
    bundle whose attributes all have [n] columns. *)
Theorem inherit_of_every_ray_is_identity (b : RayBundle.t) :
  RayBundle.inherit b SelAll None None None None None = Ok b /\
  forall n, BundleSpec.uniform_width n b ->
    RayBundle.inherit b (SelIdx (arange n)) None None None None None = Ok b.
Proof.
  split.
  - unfold RayBundle.inherit. rewrite !inherit_attr_all; simpl.
    destruct b; reflexivity.
  - intros n (Hv & Hd & He & Hp & Hr). unfold RayBundle.inherit.
    rewrite (inherit_attr_arange _ n Hv),
      (inherit_attr_arange _ n Hd),
      (inherit_attr_arange _ n He),
      (inherit_attr_arange _ n Hp),
      (inherit_attr_arange _ n Hr).
    simpl.
    destruct b; reflexivity.
Qed.

(** X4.  A sum can be taken apart again: for bundles [a] (of [n] rays) and
    [b] (of [m] rays) that have the same attributes, selecting the first
    [n] rays of [a + b] returns [a] and deleting them returns [b]. *)
Theorem sum_splits_into_its_operands (a b : RayBundle.t) (n m : nat) :
  RayBundleOps.same_attributes a b ->
  BundleSpec.uniform_width n a -> BundleSpec.uniform_width m b ->
  RayBundle.get_num_rays a = Ok n ->
  RayBundle.inherit (RayBundle.add a b) (SelIdx (arange n))
                    None None None None None = Ok a /\
  RayBundle.delete_rays (RayBundle.add a b) (arange n) = Ok b.
Proof.
  intros (Sv & Sd & Se & Sp & Sr) (Av & Ad & Ae & Ap & Ar)
         (Bv & Bd & Be & Bp & Br) Hn.
  split.
  - unfold RayBundle.inherit, RayBundle.add;
      cbn [RayBundle._vertices RayBundle._directions RayBundle._energy
           RayBundle._parents RayBundle._ref_index].
    rewrite (inherit_attr_head _ _ n Sv Av),
      (inherit_attr_head _ _ n Sd Ad),
      (inherit_attr_head _ _ n Se Ae),
      (inherit_attr_head _ _ n Sp Ap),
      (inherit_attr_head _ _ n Sr Ar).
    simpl.
    destruct a; reflexivity.
  - unfold RayBundle.delete_rays. rewrite num_rays_add, Hn; simpl.
    assert (Hm : RayBundle.get_num_rays b = Ok m).
    { unfold RayBundle.get_num_rays in *.
      destruct (RayBundle._vertices a) as [x|]; [|discriminate].
      destruct (RayBundle._vertices b) as [y|]; [|discriminate].
      rewrite (Bv y eq_refl). reflexivity. }
    rewrite Hm; simpl.
    rewrite (delete_arange (arange_valid n m)); simpl.
    rewrite complement_of_prefix.
    unfold RayBundle.inherit, RayBundle.add;
      cbn [RayBundle._vertices RayBundle._directions RayBundle._energy
           RayBundle._parents RayBundle._ref_index].
    rewrite (inherit_attr_tail _ _ n m Sv Av Bv),
      (inherit_attr_tail _ _ n m Sd Ad Bd),
      (inherit_attr_tail _ _ n m Se Ae Be),
      (inherit_attr_tail _ _ n m Sp Ap Bp),
      (inherit_attr_tail _ _ n m Sr Ar Br).
    simpl.
    destruct b; reflexivity.
Qed.

Section SelectionFacts.
Import RayBundle BundleSpec RayBundleOps.

Lemma norm_index_cases (n : nat) (i : Z) :
  (valid_index n i /\ norm_index n i = Ok (Z.to_nat (position n i)) /\
   Z.to_nat (position n i) < n) \/
  (~ valid_index n i /\ norm_index n i = Raise IndexError).
Proof.
  unfold valid_index, norm_index, position.
  destruct (Z.leb_spec 0 i), (Z.ltb_spec i (Z.of_nat n)),
           (Z.leb_spec (- Z.of_nat n) i), (Z.ltb_spec i 0);
    simpl; try lia;
    try (left; split; [lia | split; [reflexivity | lia]]);
    try (right; split; [lia | reflexivity]).
Qed.

Lemma item_cases {A} (l : list A) (i : Z) :
  (valid_index (length l) i /\ exists a, item l i = Ok a) \/
  (~ valid_index (length l) i /\ item l i = Raise IndexError).
Proof.
  unfold item.
  destruct (norm_index_cases (length l) i) as [(Hv & -> & Hlt) | (Hv & ->)].
  - left. split; [assumption|]. simpl.
    destruct (nth_error l (Z.to_nat (position (length l) i))) as [a|] eqn:E.
    + eauto.
    + apply nth_error_None in E. lia.
  - right. split; [assumption | reflexivity].
Qed.

(** Fancy indexing succeeds exactly on valid indices and otherwise raises
    [IndexError]. *)
Lemma take_cases {A} (l : list A) (idxs : list Z) :
  (Forall (valid_index (length l)) idxs /\ exists r, take l idxs = Ok r) \/
  (~ Forall (valid_index (length l)) idxs /\ take l idxs = Raise IndexError).
Proof.
  unfold take. induction idxs as [|i t IH]; simpl.
  - left. split; [constructor | eauto].
  - destruct (item_cases l i) as [(Hv & a & ->) | (Hv & ->)]; simpl.
    + destruct IH as [(Ht & r & ->) | (Ht & ->)]; simpl.
      * left. split; [constructor; assumption | eauto].
      * right. split; [|reflexivity].
        intros H. inversion H; subst. contradiction.
    + right. split; [|reflexivity].
      intros H. inversion H; subst. contradiction.
Qed.

Lemma inherit_attr_selected {A} (own out : option (list A)) (idxs : list Z) :
  inherit_attr None own (SelIdx idxs) = Ok out -> selected idxs own out.
Proof.
  destruct own as [a|]; simpl; intros H.
  - inv_bind H. inversion H; subst out; clear H.
    exists a0. split; [reflexivity|]. split.
    + eapply take_length; eassumption.
    + intros j i Hj. eapply take_nth; eassumption.
  - inversion H; reflexivity.
Qed.

Lemma inherit_attr_cases {A} (own : option (list A)) (n : nat)
    (idxs : list Z) :
  width_is n own ->
  (Forall (valid_index n) idxs ->
   exists out, inherit_attr None own (SelIdx idxs) = Ok out) /\
  (~ Forall (valid_index n) idxs -> hasattr own = true ->
   inherit_attr None own (SelIdx idxs) = Raise IndexError).
Proof.
  destruct own as [a|]; simpl; intros Hw.
  - rewrite <- (Hw a eq_refl).
    destruct (take_cases a idxs) as [(Hv & r & ->) | (Hv & ->)]; simpl.
    + split; [eauto | contradiction].
    + split; [contradiction | reflexivity].
  - split; [eauto | discriminate].
Qed.

End SelectionFacts.

(** X5.  [inherit] with an index array and no overrides returns a bundle in
    which every attribute of the source holds one column per index, the
    column that the index names, in the order of the indices; attributes
    that the source lacks stay absent. *)
Theorem inherit_copies_the_selected_columns
    (b r : RayBundle.t) (idxs : list Z) :
  RayBundle.inherit b (SelIdx idxs) None None None None None = Ok r ->
  RayBundleOps.selected idxs (RayBundle._vertices b) (RayBundle._vertices r) /\
  RayBundleOps.selected idxs (RayBundle._directions b)
                        (RayBundle._directions r) /\
  RayBundleOps.selected idxs (RayBundle._energy b) (RayBundle._energy r) /\
  RayBundleOps.selected idxs (RayBundle._parents b) (RayBundle._parents r) /\
  RayBundleOps.selected idxs (RayBundle._ref_index b)
                        (RayBundle._ref_index r).
Proof.
  unfold RayBundle.inherit. intros H.
  inv_bind H. inv_bind H. inv_bind H. inv_bind H. inv_bind H.
  inversion H; subst r; clear H; simpl.
  repeat split; apply inherit_attr_selected; assumption.
Qed.

(** X6.  On a bundle of [n] rays whose attributes all have [n] columns,
    [inherit] with an index array succeeds when every index lies in
    [-n .. n-1] and raises [IndexError] otherwise. *)
Theorem inherit_succeeds_on_valid_indices_only
    (b : RayBundle.t) (n : nat) (idxs : list Z) :
  RayBundle.get_num_rays b = Ok n ->
  BundleSpec.uniform_width n b ->
  (Forall (BundleSpec.valid_index n) idxs ->
   exists r, RayBundle.inherit b (SelIdx idxs) None None None None None
             = Ok r) /\
  (~ Forall (BundleSpec.valid_index n) idxs ->
   RayBundle.inherit b (SelIdx idxs) None None None None None
   = Raise IndexError).
Proof.
  intros Hn (Hv & Hd & He & Hp & Hr). unfold RayBundle.inherit. split.
  - intros Hval.
    destruct (proj1 (inherit_attr_cases _ n idxs Hv) Hval) as (v & ->).
    destruct (proj1 (inherit_attr_cases _ n idxs Hd) Hval) as (d & ->).
    destruct (proj1 (inherit_attr_cases _ n idxs He) Hval) as (e & ->).
    destruct (proj1 (inherit_attr_cases _ n idxs Hp) Hval) as (p & ->).
    destruct (proj1 (inherit_attr_cases _ n idxs Hr) Hval) as (r & ->).
    simpl. eauto.
  - intros Hbad.
    rewrite (proj2 (inherit_attr_cases _ n idxs Hv) Hbad); [reflexivity|].
    unfold RayBundle.get_num_rays in Hn.
    destruct (RayBundle._vertices b); [reflexivity | discriminate].
Qed.

(** ** Merging a list of bundles *)

Section ConcatenateFacts.
Import RayBundle BundleSpec RayBundleOps.

Variable A : Type.
Variable proj : t -> option (list A).
Hypothesis proj_add : forall a b, proj (add a b) = add_attr (proj a) (proj b).
Hypothesis proj_empty : proj empty_bund = Some [].

Lemma gather_present (l : list t) :
  Forall (fun b => true = hasattr (proj b)) l ->
  exists xs, mapM (fun b => getter (proj b)) l = Ok xs /\
             proj (fold_right add empty_bund l) = Some (concat xs).
Proof.
  induction l as [|b l IH]; simpl; intros H.
  - exists []. split; [reflexivity | exact proj_empty].
  - inversion H as [|? ? Hb Hl]; subst.
    destruct (IH Hl) as (xs & Hxs & Hfold).
    destruct (proj b) as [x|] eqn:E; [|discriminate].
    simpl. rewrite Hxs; simpl. exists (x :: xs). split; [reflexivity|].
    rewrite proj_add, E, Hfold. reflexivity.
Qed.

Lemma concat_attr_fold (first : t) (rest : list t) :
  Forall (fun b => hasattr (proj first) = hasattr (proj b)) rest ->
  concat_attr proj (first :: rest) first
  = Ok (proj (fold_right add empty_bund (first :: rest))).
Proof.
  intros H. unfold concat_attr. simpl fold_right. rewrite proj_add.
  destruct (proj first) as [x|] eqn:E; simpl; [|reflexivity].
  rewrite E; simpl.
  destruct (gather_present rest H) as (xs & -> & ->). reflexivity.
Qed.

Lemma concat_attr_Ok_or_KeyError (l : list t) (first : t) :
  (exists r, concat_attr proj l first = Ok r) \/
  concat_attr proj l first = Raise KeyError.
Proof.
  unfold concat_attr. destruct (hasattr (proj first)); [|eauto].
  assert (H : (exists xs, mapM (fun b => getter (proj b)) l = Ok xs) \/
              mapM (fun b => getter (proj b)) l = Raise KeyError).
  { induction l as [|b l IH]; simpl; [eauto|].
    destruct (proj b); simpl; [|auto].
    destruct IH as [(xs & ->) | ->]; simpl; eauto. }
  destruct H as [(xs & ->) | ->]; simpl; eauto.
Qed.

Lemma concat_attr_missing (l : list t) (first b : t) :
  In b l -> hasattr (proj first) = true -> proj b = None ->
  concat_attr proj l first = Raise KeyError.
Proof.
  intros Hin Hf Hb. unfold concat_attr. rewrite Hf.
  assert (H : mapM (fun b => getter (proj b)) l = Raise KeyError).
  { induction l as [|c l IH]; simpl; [contradiction|].
    destruct Hin as [-> | Hin].
    - rewrite Hb. reflexivity.
    - destruct (proj c); simpl; [|reflexivity].
      rewrite (IH Hin). reflexivity. }
  rewrite H. reflexivity.
Qed.

End ConcatenateFacts.

(** X7.  [concatenate_rays] of an empty list is the empty bundle, and of a
    list whose bundles all have the attributes of the first it is the
    left-to-right sum of the bundles. *)
Theorem concatenate_rays_is_iterated_sum :
  RayBundleOps.concatenate_rays [] = Ok RayBundle.empty_bund /\
  forall (first : RayBundle.t) (rest : list RayBundle.t),
    Forall (RayBundleOps.same_attributes first) rest ->
    RayBundleOps.concatenate_rays (first :: rest)
    = Ok (fold_right RayBundle.add RayBundle.empty_bund (first :: rest)).
Proof.
  split; [reflexivity|].
  intros first rest H. unfold RayBundleOps.concatenate_rays.
  rewrite (concat_attr_fold _ RayBundle._directions
             (fun _ _ => eq_refl) eq_refl first rest),
          (concat_attr_fold _ RayBundle._vertices
             (fun _ _ => eq_refl) eq_refl first rest),
          (concat_attr_fold _ RayBundle._energy
             (fun _ _ => eq_refl) eq_refl first rest),
          (concat_attr_fold _ RayBundle._parents
             (fun _ _ => eq_refl) eq_refl first rest),
          (concat_attr_fold _ RayBundle._ref_index
             (fun _ _ => eq_refl) eq_refl first rest);
    try (eapply Forall_impl; [|exact H]; intros b (?&?&?&?&?); assumption).
  generalize (fold_right RayBundle.add RayBundle.empty_bund (first :: rest)).
  intros s. destruct s; reflexivity.
Qed.

(** X8.  Where the binary sum drops an attribute that only the first
    operand has, [concatenate_rays] raises [KeyError]: that is its result
    whenever some bundle of the list misses an attribute of the first. *)
Theorem concatenate_rays_raises_on_missing_attribute
    (first b : RayBundle.t) (rest : list RayBundle.t) :
  In b rest -> RayBundleOps.lacks_attribute_of first b ->
  RayBundleOps.concatenate_rays (first :: rest) = Raise KeyError.
Proof.
  intros Hin Hl. unfold RayBundleOps.concatenate_rays.
  assert (Hin' : In b (first :: rest)) by (right; assumption).
  pose proof (fun A proj => @concat_attr_missing A proj (first :: rest)
                              first b Hin') as M.
  destruct (concat_attr_Ok_or_KeyError _ RayBundle._directions
              (first :: rest) first) as [(d & Ed) | Ed];
    rewrite Ed; simpl; [|reflexivity].
  destruct (concat_attr_Ok_or_KeyError _ RayBundle._vertices
              (first :: rest) first) as [(v & Ev) | Ev];
    rewrite Ev; simpl; [|reflexivity].
  destruct (concat_attr_Ok_or_KeyError _ RayBundle._energy
              (first :: rest) first) as [(e & Ee) | Ee];
    rewrite Ee; simpl; [|reflexivity].
  destruct (concat_attr_Ok_or_KeyError _ RayBundle._parents
              (first :: rest) first) as [(p & Ep) | Ep];
    rewrite Ep; simpl; [|reflexivity].
  destruct (concat_attr_Ok_or_KeyError _ RayBundle._ref_index
              (first :: rest) first) as [(r & Er) | Er];
    rewrite Er; simpl; [|reflexivity].
  exfalso.
  destruct Hl as [(H1 & H2) | [(H1 & H2) | [(H1 & H2) | [(H1 & H2) |
                  (H1 & H2)]]]].
  - rewrite (M _ RayBundle._directions H1 H2) in Ed. discriminate.
  - rewrite (M _ RayBundle._vertices H1 H2) in Ev. discriminate.
  - rewrite (M _ RayBundle._energy H1 H2) in Ee. discriminate.
  - rewrite (M _ RayBundle._parents H1 H2) in Ep. discriminate.
  - rewrite (M _ RayBundle._ref_index H1 H2) in Er. discriminate.
Qed.

(** ** Getters and setters with a selector *)

Section SetterFacts.
Import RayBundle BundleSpec RayBundleOps.

Lemma nth_error_assign_at_other {A} (js : list nat) (l vs : list A)
    (k : nat) :
  ~ In k js -> nth_error (assign_at l js vs) k = nth_error l k.
Proof.
  revert l vs; induction js as [|j js IH]; intros l [|v vs] Hk; simpl;
    try reflexivity.
  rewrite IH by (intros H; apply Hk; right; assumption).
  rewrite nth_error_set_nth.
  destruct (Nat.eqb_spec k j); [|reflexivity].
  exfalso. apply Hk. left. congruence.
Qed.

(** With distinct positions every written value is still there afterwards. *)
Lemma nth_error_assign_at_written {A} (js : list nat) (l vs : list A)
    (t j : nat) (v : A) :
  NoDup js -> Forall (fun j => j < length l) js ->
  nth_error js t = Some j -> nth_error vs t = Some v ->
  nth_error (assign_at l js vs) j = Some v.
Proof.
  revert l vs t; induction js as [|j0 js IH]; intros l vs t Hnd Hlt Hj Hv.
  - destruct t; discriminate.
  - destruct vs as [|v0 vs]; [destruct t; discriminate|].
    inversion Hnd as [|? ? Hnotin Hnd']; subst.
    inversion Hlt as [|? ? Hj0 Hlt']; subst.
    destruct t as [|t]; simpl in *.
    + inversion Hj; inversion Hv; subst.
      rewrite nth_error_assign_at_other by assumption.
      rewrite nth_error_set_nth, Nat.eqb_refl.
      apply Nat.ltb_lt in Hj0. rewrite Hj0. reflexivity.
    + apply (IH _ _ t); try assumption.
      eapply Forall_impl; [|exact Hlt'].
      intros a Ha. rewrite set_nth_length. exact Ha.
Qed.

Lemma mapM_pointwise {B C} (f : B -> result C) (l : list B) (r : list C) :
  length r = length l ->
  (forall t b, nth_error l t = Some b ->
     exists c, nth_error r t = Some c /\ f b = Ok c) ->
  mapM f l = Ok r.
Proof.
  revert r; induction l as [|b l IH]; intros [|c r] Hlen H; simpl in *;
    try discriminate; [reflexivity|].
  destruct (H 0 b eq_refl) as (c' & Hc & ->). inversion Hc; subst c'.
  simpl. rewrite (IH r); [reflexivity | lia |].
  intros t b' Hb'. exact (H (S t) b' Hb').
Qed.

Lemma mapM_norm_index (n : nat) (idxs : list Z) :
  Forall (valid_index n) idxs ->
  mapM (norm_index n) idxs
  = Ok (map (fun i => Z.to_nat (position n i)) idxs).
Proof.
  intros H. rewrite <- mapM_Ok. apply mapM_ext_in.
  intros i Hi. apply norm_index_valid.
  rewrite Forall_forall in H. auto.
Qed.

End SetterFacts.

(** X9.  Writing through a setter with an index array stores what the
    typed array makes of the values; when a value cannot be stored the
    setter raises what the conversion raises.  Otherwise, reading back
    through the getter with the same index array returns the stored
    values, provided the indices are valid, name distinct rays and there is
    one value per index; the attribute keeps its length and the rays that
    were not named keep their values. *)
Theorem setter_then_getter_round_trip
    (A : Type) (store : A -> result A) (a : list A) (idxs : list Z)
    (new_val : list A) :
  (forall e, mapM store new_val = Raise e ->
     RayBundleOps.set store (Some a) new_val (Some (SelIdx idxs)) = Raise e) /\
  (forall stored,
     mapM store new_val = Ok stored ->
     Forall (BundleSpec.valid_index (length a)) idxs ->
     NoDup (map (fun i => Z.to_nat (BundleSpec.position (length a) i)) idxs) ->
     length new_val = length idxs ->
     exists a',
       RayBundleOps.set store (Some a) new_val (Some (SelIdx idxs))
       = Ok (Some a') /\
       length a' = length a /\
       RayBundleOps.get (Some a') (Some (SelIdx idxs)) = Ok stored /\
       forall k,
         ~ In k (map (fun i => Z.to_nat (BundleSpec.position (length a) i))
                     idxs)
         -> nth_error a' k = nth_error a k).
Proof.
  split.
  { intros e He.
    unfold RayBundleOps.set, RayBundleOps.put; simpl. rewrite He.
    reflexivity. }
  intros stored Hst Hval Hnd Hlen0.
  assert (Hlen : length stored = length idxs).
  { rewrite <- Hlen0. eapply mapM_length; eassumption. }
  set (js := map (fun i => Z.to_nat (BundleSpec.position (length a) i)) idxs)
    in *.
  exists (assign_at a js stored).
  assert (Hset : RayBundleOps.set store (Some a) new_val (Some (SelIdx idxs))
                 = Ok (Some (assign_at a js stored))).
  { unfold RayBundleOps.set, RayBundleOps.put, RayBundleOps.broadcast_to.
    simpl. rewrite Hst; simpl.
    rewrite Hlen, Nat.eqb_refl; simpl.
    rewrite (mapM_norm_index _ _ Hval); simpl. reflexivity. }
  split; [exact Hset|]. split; [apply assign_at_length|]. split.
  - unfold RayBundleOps.get; simpl. unfold take.
    apply mapM_pointwise; [assumption|].
    intros t i Hi.
    assert (Ht : t < length stored)
      by (rewrite Hlen; apply nth_error_Some; congruence).
    destruct (nth_error stored t) as [v|] eqn:Ev;
      [|apply nth_error_None in Ev; lia].
    exists v. split; [reflexivity|].
    unfold item. rewrite assign_at_length.
    assert (Hvi : BundleSpec.valid_index (length a) i).
    { rewrite Forall_forall in Hval. apply Hval.
      eapply nth_error_In; eassumption. }
    destruct (norm_index_cases (length a) i) as [(_ & -> & Hlt) | (Hbad & _)];
      [|contradiction].
    simpl.
    rewrite (nth_error_assign_at_written js a stored t _ v); try assumption.
    + reflexivity.
    + unfold js. apply Forall_forall. intros j Hj.
      apply in_map_iff in Hj. destruct Hj as (i' & <- & Hi').
      rewrite Forall_forall in Hval.
      destruct (norm_index_cases (length a) i') as [(_ & _ & H) | (H & _)];
        [exact H | exfalso; apply H; auto].
    + unfold js. rewrite nth_error_map, Hi. reflexivity.
  - intros k Hk. apply nth_error_assign_at_other. exact Hk.
Qed.

(** ** Flat surfaces: what the distances and the protocol guarantee *)

Section DistanceFacts.
Import GeometryManager Vec FlatSpec.
Local Open Scope float_scope.

Lemma forward_only_not_negative (t : float) : (forward_only t <? 0) = false.
Proof.
  unfold forward_only. destruct (t <? 0) eqn:E; [reflexivity | exact E].
Qed.

Lemma ray_distance_not_negative (L : Lib.t) (f : frame) (v d : vec3 float) :
  (ray_distance L f v d <? 0) = false.
Proof.
  unfold ray_distance.
  destruct (eps <? abs (ray_dt L f d));
    [apply forward_only_not_negative | reflexivity].
Qed.

Lemma zip_with_Forall {A B C} (P : C -> Prop) (g : A -> B -> C)
    (l : list A) (l' : list B) :
  (forall a b, P (g a b)) -> Forall P (zip_with g l l').
Proof.
  intros H. revert l'; induction l as [|a t IH]; intros [|b t']; simpl;
    constructor; auto.
Qed.

Lemma mask_fill_keeps_or_fills {A} (l : list A) (m : list bool) (c : A)
    (i : nat) (a : A) :
  nth_error l i = Some a ->
  nth_error (mask_fill l m c) i = Some a \/
  nth_error (mask_fill l m c) i = Some c.
Proof.
  revert l m; induction i as [|i IH]; intros [|x l] [|b m]; simpl;
    intros H; try discriminate; auto.
  destruct b; auto.
Qed.

(** A mask that flags nothing changes nothing. *)
Lemma mask_fill_none {A} (l : list A) (m : list bool) (c : A) :
  Forall (fun b => b = false) m -> mask_fill l m c = l.
Proof.
  revert m; induction l as [|a l IH]; intros [|b m] H; simpl;
    try reflexivity.
  inversion H; subst. rewrite IH by assumption. reflexivity.
Qed.

Lemma mask_fill_Forall {A} (P : A -> Prop) (l : list A) (m : list bool)
    (c : A) :
  P c -> Forall P l -> Forall P (mask_fill l m c).
Proof.
  intros Hc. revert m; induction l as [|a l IH]; intros [|b m] H; simpl;
    try assumption.
  inversion H; subst. constructor; [destruct b; assumption | auto].
Qed.

End DistanceFacts.

(** X10.  No distance returned by the infinite flat surface is negative:
    every entry [t] of the returned array fails the test [t < 0]. *)
Theorem flat_distances_are_never_negative
    (L : Lib.t) (f : frame) (b : RayBundle.t)
    (self s : GeometryManager.state) (params : list float) :
  FlatGeometryManager.find_intersections L f b self = Ok (params, s) ->
  Forall (fun t => (t <? 0)%float = false) params /\
  GeometryManager._params s = Some params.
Proof.
  intros H.
  destruct (flat_find_intersections_inv L f b self _ _ H)
    as (vs & ds & Hv & Hd & Hlen).
  rewrite (flat_find_intersections_run L f b self vs ds Hv Hd Hlen) in H.
  inversion H; subst; clear H. split; [|reflexivity].
  apply zip_with_Forall. intros v d. apply ray_distance_not_negative.
Qed.

(** X11.  A plate only ever removes hits: each distance returned by
    [RectPlateGM] or [RoundPlateGM] is the distance the infinite surface
    returns for that ray or [+inf], so a ray that misses the plane misses
    the plate, and no returned distance is negative. *)
Theorem plates_only_remove_hits
    (L : Lib.t) (f : frame) (b : RayBundle.t)
    (self s : GeometryManager.state) (r : list float) :
  (exists hd, RectPlateGM.find_intersections L hd f b self = Ok (r, s)) \/
  (exists R, RoundPlateGM.find_intersections L R f b self = Ok (r, s)) ->
  exists flat t1,
    FlatGeometryManager.find_intersections L f b self = Ok (flat, t1) /\
    length r = length flat /\
    (forall i t, nth_error flat i = Some t ->
       nth_error r i = Some t \/ nth_error r i = Some infinity) /\
    Forall (fun t => (t <? 0)%float = false) r.
Proof.
  intros H.
  assert (Hfin : exists p s0,
             FiniteFlatGM.find_intersections L f b self = Ok (p, s0)).
  { destruct H as [(hd & H) | (R & H)];
      [unfold RectPlateGM.find_intersections in H
      |unfold RoundPlateGM.find_intersections in H];
      destruct (FiniteFlatGM.find_intersections L f b self)
        as [[p s0]|]; try discriminate; eauto. }
  destruct Hfin as (p & s0 & Hfin).
  destruct (finite_find_intersections_inv L f b self _ _ Hfin)
    as (vs & ds & m & Hv & Hd & Hlen & Hm).
  exists (Vec.zip_with (FlatSpec.ray_distance L f) vs ds). eexists.
  split; [apply (flat_find_intersections_run L f b self vs ds Hv Hd Hlen)|].
  assert (Hnn : Forall (fun t => (t <? 0)%float = false)
                  (Vec.zip_with (FlatSpec.ray_distance L f) vs ds)).
  { apply zip_with_Forall. intros v d. apply ray_distance_not_negative. }
  destruct H as [(hd & H) | (R & H)].
  - destruct (rect_find_intersections_run L hd f b self vs ds m
                Hv Hd Hlen Hm) as (s' & Hrun & _).
    rewrite Hrun in H. inversion H; subst r s; clear H.
    split; [apply mask_fill_length|]. split.
    + intros i t Hi. apply mask_fill_keeps_or_fills. exact Hi.
    + apply mask_fill_Forall; [reflexivity | exact Hnn].
  - destruct (Lib.square L R) as [R2|e] eqn:HR;
      [|rewrite (round_find_intersections_raise L R e f b self vs ds m
                   Hv Hd Hlen Hm HR) in H; discriminate].
    destruct (round_find_intersections_run L R R2 f b self vs ds m
                Hv Hd Hlen Hm HR) as (s' & Hrun & _).
    rewrite Hrun in H. inversion H; subst r s; clear H.
    split; [apply mask_fill_length|]. split.
    + intros i t Hi. apply mask_fill_keeps_or_fills. exact Hi.
    + apply mask_fill_Forall; [reflexivity | exact Hnn].
Qed.

Section ProtocolFacts.
Import GeometryManager Vec FlatSpec BundleSpec.
Local Open Scope float_scope.

Lemma take_valid {A} (l : list A) (n : nat) (idxs : list Z) :
  length l = n -> Forall (valid_index n) idxs ->
  exists r, take l idxs = Ok r.
Proof.
  intros <- H.
  destruct (take_cases l idxs) as [(_ & Hr) | (Hbad & _)];
    [exact Hr | contradiction].
Qed.

Lemma take_invalid {A} (l : list A) (n : nat) (idxs : list Z) :
  length l = n -> ~ Forall (valid_index n) idxs ->
  take l idxs = Raise IndexError.
Proof.
  intros <- H.
  destruct (take_cases l idxs) as [(Hok & _) | (_ & Hr)];
    [contradiction | exact Hr].
Qed.

(** Without stored distances [select_rays] cannot succeed. *)
Lemma flat_select_rays_needs_params (idxs : list Z) (s : state) :
  _params s = None ->
  exists e, FlatGeometryManager.select_rays idxs s = Raise e.
Proof.
  intros Hp. unfold FlatGeometryManager.select_rays. rewrite Hp.
  destruct (attr (_backside s)) as [bk|?]; simpl; [|eauto].
  destruct (FlatGeometryManager.narrow_backside bk idxs); simpl; [|eauto].
  destruct (attr (_working_bundle s)) as [wb|?]; simpl; [|eauto].
  destruct (RayBundle.get_vertices wb) as [vs|?]; simpl; [|eauto].
  destruct (take vs idxs); simpl; [|eauto].
  destruct (RayBundle.get_directions wb) as [ds|?]; simpl; [|eauto].
  destruct (take ds idxs); simpl; eauto.
Qed.

End ProtocolFacts.

(** X12.  After [find_intersections] on a bundle of [n] rays,
    [select_rays(idxs)] succeeds when every index lies in [-n .. n-1] and
    raises [IndexError] otherwise; this holds for the infinite surface and
    for the finite ones. *)
Theorem select_rays_succeeds_on_valid_indices_only
    (L : Lib.t) (f : frame) (b : RayBundle.t)
    (self s1 : GeometryManager.state)
    (params : list float) (idxs : list Z) :
  (FlatGeometryManager.find_intersections L f b self = Ok (params, s1) ->
   (Forall (BundleSpec.valid_index (length params)) idxs ->
    exists s2, FlatGeometryManager.select_rays idxs s1 = Ok (tt, s2)) /\
   (~ Forall (BundleSpec.valid_index (length params)) idxs ->
    FlatGeometryManager.select_rays idxs s1 = Raise IndexError)) /\
  (FiniteFlatGM.find_intersections L f b self = Ok (params, s1) ->
   (Forall (BundleSpec.valid_index (length params)) idxs ->
    exists s2, FiniteFlatGM.select_rays idxs s1 = Ok (tt, s2)) /\
   (~ Forall (BundleSpec.valid_index (length params)) idxs ->
    FiniteFlatGM.select_rays idxs s1 = Raise IndexError)).
Proof.
  split.
  - intros H.
    destruct (flat_find_intersections_inv L f b self _ _ H)
      as (vs & ds & Hv & Hd & Hlen).
    rewrite (flat_find_intersections_run L f b self vs ds Hv Hd Hlen) in H.
    inversion H; subst params s1; clear H.
    rewrite zip_with_length by assumption.
    unfold FlatGeometryManager.select_rays, RayBundle.get_vertices,
      RayBundle.get_directions; simpl. rewrite Hv, Hd; simpl.
    split; intros Hi.
    + destruct (take_valid (map (fun d => (0 <? FlatSpec.ray_dt L f d)%float) ds)
                  (length vs) idxs ltac:(rewrite length_map; exact Hlen) Hi)
        as (x & ->).
      destruct (take_valid vs (length vs) idxs eq_refl Hi) as (v & ->).
      destruct (take_valid ds (length vs) idxs Hlen Hi) as (d & ->).
      destruct (take_valid (Vec.zip_with (FlatSpec.ray_distance L f) vs ds)
                  (length vs) idxs
                  ltac:(apply zip_with_length; exact Hlen) Hi) as (p & ->).
      simpl. eauto.
    + rewrite (take_invalid
                 (map (fun d => (0 <? FlatSpec.ray_dt L f d)%float) ds)
                 (length vs) idxs ltac:(rewrite length_map; exact Hlen) Hi).
      reflexivity.
  - intros H.
    destruct (finite_find_intersections_inv L f b self _ _ H)
      as (vs & ds & m & Hv & Hd & Hlen & Hm).
    rewrite (finite_find_intersections_run L f b self vs ds m Hv Hd Hlen Hm)
      in H.
    inversion H; subst params s1; clear H.
    rewrite zip_with_length by assumption.
    unfold FiniteFlatGM.select_rays; simpl.
    split; intros Hi.
    + destruct (take_valid (map (fun d => (0 <? FlatSpec.ray_dt L f d)%float) ds)
                  (length vs) idxs ltac:(rewrite length_map; exact Hlen) Hi)
        as (x & ->).
      destruct (take_valid
                  (Vec.points vs (Vec.zip_with (FlatSpec.ray_distance L f) vs ds)
                              ds)
                  (length vs) idxs
                  ltac:(apply points_length;
                        [apply zip_with_length; exact Hlen | exact Hlen]) Hi)
        as (g & ->).
      simpl. eauto.
    + rewrite (take_invalid
                 (map (fun d => (0 <? FlatSpec.ray_dt L f d)%float) ds)
                 (length vs) idxs ltac:(rewrite length_map; exact Hlen) Hi).
      reflexivity.
Qed.

(** X13.  [select_rays] of the infinite surface consumes the stored
    distances: once it has succeeded, a second [select_rays] in the same
    cycle raises, whatever indices it is given. *)
Theorem flat_select_rays_cannot_be_repeated
    (idxs idxs' : list Z) (s s' : GeometryManager.state) (u : unit) :
  FlatGeometryManager.select_rays idxs s = Ok (u, s') ->
  exists e, FlatGeometryManager.select_rays idxs' s' = Raise e.
Proof.
  intros H. apply flat_select_rays_needs_params.
  destruct (flat_select_rays_inv idxs s s' u H)
    as (bk & js & wb & vs & ds & ps & v & d & p & _ & _ & _ & _ & _ & _ & _
        & _ & _ & ->).
  reflexivity.
Qed.

(** X14.  After [done] the selection is gone: whatever the base class's
    [done] does, [get_intersection_points_global] and [get_normals] raise
    [AttributeError] until the next cycle has selected its rays. *)
Theorem done_discards_the_selection
    (base_done : GeometryManager.M unit) (s s' : GeometryManager.state)
    (u : unit) :
  FlatDone.done base_done s = Ok (u, s') ->
  FlatGeometryManager.get_intersection_points_global s'
  = Raise AttributeError /\
  FlatGeometryManager.get_normals s' = Raise AttributeError.
Proof.
  unfold FlatDone.done. intros H. inv_bind H.
  inversion H; subst s'; clear H.
  unfold FlatGeometryManager.get_intersection_points_global,
    FlatGeometryManager.get_normals; simpl.
  split; [reflexivity|].
  destruct (GeometryManager._working_frame (snd a)); reflexivity.
Qed.

(** ** Sizes that are not numbers *)

Section NanFacts.
Local Open Scope float_scope.

Lemma is_nan_Prim2SF (x : float) :
  PrimFloat.is_nan x = true -> Prim2SF x = S754_nan.
Proof.
  unfold PrimFloat.is_nan. rewrite eqb_spec. unfold SFeqb.
  destruct (Prim2SF x) as [s|s| |s m e]; simpl; try reflexivity;
    try (destruct s; discriminate).
  destruct s; rewrite Z.compare_refl, Pos.compare_cont_refl; discriminate.
Qed.

Lemma nan_leb (x y : float) :
  PrimFloat.is_nan x = true -> (x <=? y) = false.
Proof.
  intros H. rewrite leb_spec, (is_nan_Prim2SF x H). reflexivity.
Qed.

Lemma nan_ltb (x y : float) :
  PrimFloat.is_nan x = true -> (x <? y) = false.
Proof.
  intros H. rewrite ltb_spec, (is_nan_Prim2SF x H). reflexivity.
Qed.

Lemma Prim2SF_nan_is_nan (x : float) :
  Prim2SF x = S754_nan -> PrimFloat.is_nan x = true.
Proof.
  intros H. unfold PrimFloat.is_nan. rewrite eqb_spec, H. reflexivity.
Qed.

Lemma nan_div (x y : float) :
  PrimFloat.is_nan x = true -> PrimFloat.is_nan (x / y) = true.
Proof.
  intros H. apply Prim2SF_nan_is_nan.
  rewrite div_spec, (is_nan_Prim2SF x H). reflexivity.
Qed.

Lemma nan_mul (x y : float) :
  PrimFloat.is_nan x = true -> PrimFloat.is_nan (x * y) = true.
Proof.
  intros H. apply Prim2SF_nan_is_nan.
  rewrite mul_spec, (is_nan_Prim2SF x H). reflexivity.
Qed.

End NanFacts.

(** X15.  The constructors test [size <= 0], which a NaN passes: a round
    plate with a NaN radius, and a rectangular plate with NaN width and
    height, are constructed.  Such a plate flags no ray as outside, so it
    trims nothing: its [find_intersections] returns the finite-flat
    distances unchanged.  For the round plate [R**2] of the NaN radius is
    the NaN [R2]. *)
Theorem nan_sizes_pass_validation_and_trim_nothing :
  (forall (L : Lib.t) (R R2 : float),
      PrimFloat.is_nan R = true ->
      Lib.square L R = Ok R2 -> PrimFloat.is_nan R2 = true ->
      RoundPlateGM.init R = Ok (RoundPlateGM.mk_plate R GeometryManager.fresh)
      /\ (forall l, RoundPlateGM.outside R2 l = false)
      /\ forall f b self flat s0,
           FiniteFlatGM.find_intersections L f b self = Ok (flat, s0) ->
           exists s,
             RoundPlateGM.find_intersections L R f b self = Ok (flat, s)) /\
  (forall (L : Lib.t) (width height : float),
      PrimFloat.is_nan width = true -> PrimFloat.is_nan height = true ->
      RectPlateGM.init width height =
      Ok (RectPlateGM.mk_plate (width / 2, height / 2)%float
                               GeometryManager.fresh)
      /\ (forall l, RectPlateGM.outside (width / 2, height / 2)%float l
                   = false)
      /\ forall f b self flat s0,
           FiniteFlatGM.find_intersections L f b self = Ok (flat, s0) ->
           exists s,
             RectPlateGM.find_intersections L (width / 2, height / 2)%float
               f b self = Ok (flat, s)).
Proof.
  split.
  - intros L R R2 H HR H2.
    assert (Hout : forall l, RoundPlateGM.outside R2 l = false).
    { intros [[[x y] z] w]. unfold RoundPlateGM.outside.
      apply nan_ltb. exact H2. }
    split; [|split].
    + unfold RoundPlateGM.init. rewrite (nan_leb R 0 H). reflexivity.
    + exact Hout.
    + intros f b self flat s0 Hfin.
      destruct (finite_find_intersections_inv L f b self _ _ Hfin)
        as (vs & ds & m & Hv & Hd & Hlen & Hm).
      destruct (round_find_intersections_run L R R2 f b self vs ds m
                  Hv Hd Hlen Hm HR) as (s & Hrun & _).
      rewrite (finite_find_intersections_run L f b self vs ds m
                 Hv Hd Hlen Hm) in Hfin.
      inversion Hfin; subst flat s0; clear Hfin.
      exists s. rewrite Hrun. f_equal. f_equal.
      apply mask_fill_none. apply Forall_forall.
      intros x Hx. apply in_map_iff in Hx. destruct Hx as (l & <- & _).
      apply Hout.
  - intros L w h Hw Hh.
    assert (Hout : forall l,
               RectPlateGM.outside (w / 2, h / 2)%float l = false).
    { intros [[[x y] z] t]. unfold RectPlateGM.outside; simpl.
      rewrite (nan_ltb _ _ (nan_div w 2 Hw)),
              (nan_ltb _ _ (nan_div h 2 Hh)).
      reflexivity. }
    split; [|split].
    + unfold RectPlateGM.init.
      rewrite (nan_leb w 0 Hw), (nan_leb h 0 Hh). reflexivity.
    + exact Hout.
    + intros f b self flat s0 Hfin.
      destruct (finite_find_intersections_inv L f b self _ _ Hfin)
        as (vs & ds & m & Hv & Hd & Hlen & Hm).
      destruct (rect_find_intersections_run L (w / 2, h / 2)%float f b self
                  vs ds m Hv Hd Hlen Hm) as (s & Hrun & _).
      rewrite (finite_find_intersections_run L f b self vs ds m
                 Hv Hd Hlen Hm) in Hfin.
      inversion Hfin; subst flat s0; clear Hfin.
      exists s. rewrite Hrun. f_equal. f_equal.
      apply mask_fill_none. apply Forall_forall.
      intros x Hx. apply in_map_iff in Hx. destruct Hx as (l & <- & _).
      apply Hout.
Qed.

(** ** More on rotations *)

Ltac split_pairs :=
  repeat match goal with
         | |- (_, _) = (_, _) => apply f_equal2
         end.

(** X21.  The matrix of [generate_transform] maps a homogeneous point [p]
    to the rotated point plus the translation, again in homogeneous form. *)
Theorem generate_transform_rotates_then_translates
    (axis : vec3 R) (angle : R) (translation p : vec3 R) :
  exists rot t,
    SpatialGeometry.general_axis_rotation SpatialGeometry.exact axis angle
    = Ok rot /\
    SpatialGeometry.generate_transform SpatialGeometry.exact axis angle
      translation = Ok t /\
    SpatialSpec.mulv4 t (SpatialSpec.homogeneous p)
    = SpatialSpec.homogeneous
        (SpatialSpec.add3 (SpatialGeometry.mulv SpatialGeometry.exact rot p)
           translation).
Proof.
  unfold SpatialGeometry.generate_transform.
  destruct (SpatialGeometry.general_axis_rotation SpatialGeometry.exact
              axis angle)
    as [[[[[r00 r01] r02] [[r10 r11] r12]] [[r20 r21] r22]]|e] eqn:E;
    [|discriminate E].
  destruct translation as [[t0 t1] t2]. destruct p as [[p0 p1] p2].
  do 2 eexists. split; [reflexivity|]. split; [reflexivity|].
  unfold_exact. simpl. split_pairs; ring.
Qed.

(** ** The further properties at concrete inputs *)

Lemma four_rays_uniform : BundleSpec.uniform_width 4 Samples.four_rays.
Proof.
  repeat split; intros x Hx; inversion Hx; reflexivity.
Qed.

Lemma four_rays_same_attributes :
  RayBundleOps.same_attributes Samples.four_rays Samples.four_rays.
Proof. repeat split. Qed.

Lemma inherit_of_every_ray_is_identity_witness :
  RayBundle.inherit Samples.four_rays (SelIdx (arange 4))
                    None None None None None = Ok Samples.four_rays.
Proof.
  apply (proj2 (inherit_of_every_ray_is_identity Samples.four_rays) 4).
  exact four_rays_uniform.
Defined.

Lemma sum_splits_into_its_operands_witness :
  RayBundle.inherit (RayBundle.add Samples.four_rays Samples.four_rays)
                    (SelIdx (arange 4)) None None None None None
  = Ok Samples.four_rays /\
  RayBundle.delete_rays (RayBundle.add Samples.four_rays Samples.four_rays)
                        (arange 4) = Ok Samples.four_rays.
Proof.
  apply (sum_splits_into_its_operands Samples.four_rays Samples.four_rays
           4 4 four_rays_same_attributes four_rays_uniform four_rays_uniform
           eq_refl).
Defined.

Lemma inherit_copies_the_selected_columns_witness :
  exists r,
    RayBundle.inherit Samples.four_rays (SelIdx [1; -1]%Z)
                      None None None None None = Ok r /\
    RayBundleOps.selected [1; -1]%Z
      (RayBundle._parents Samples.four_rays) (RayBundle._parents r).
Proof.
  eassert (H : RayBundle.inherit Samples.four_rays (SelIdx [1; -1]%Z)
                 None None None None None = Ok _)
    by (vm_compute; reflexivity).
  eexists. split; [exact H|].
  destruct (inherit_copies_the_selected_columns _ _ _ H)
    as (_ & _ & _ & Hp & _).
  exact Hp.
Defined.

Lemma inherit_succeeds_on_valid_indices_only_witness :
  (exists r, RayBundle.inherit Samples.four_rays (SelIdx [0; -4]%Z)
               None None None None None = Ok r) /\
  RayBundle.inherit Samples.four_rays (SelIdx [0; 4]%Z)
    None None None None None = Raise IndexError.
Proof.
  split.
  - apply (proj1 (inherit_succeeds_on_valid_indices_only
                    Samples.four_rays 4 [0; -4]%Z eq_refl four_rays_uniform)).
    repeat constructor; unfold BundleSpec.valid_index; simpl; lia.
  - apply (proj2 (inherit_succeeds_on_valid_indices_only
                    Samples.four_rays 4 [0; 4]%Z eq_refl four_rays_uniform)).
    intros H. inversion H as [|? ? _ H']; subst.
    inversion H' as [|? ? Hbad _]; subst.
    unfold BundleSpec.valid_index in Hbad. simpl in Hbad. lia.
Defined.

Lemma concatenate_rays_is_iterated_sum_witness :
  RayBundleOps.concatenate_rays [Samples.four_rays; Samples.four_rays]
  = Ok (RayBundle.add Samples.four_rays
          (RayBundle.add Samples.four_rays RayBundle.empty_bund)).
Proof.
  apply (proj2 concatenate_rays_is_iterated_sum).
  repeat constructor.
Defined.

Lemma concatenate_rays_raises_on_missing_attribute_witness :
  RayBundleOps.concatenate_rays [Samples.four_rays; Samples.falling_rays]
  = Raise KeyError.
Proof.
  apply (concatenate_rays_raises_on_missing_attribute
           Samples.four_rays Samples.falling_rays [Samples.falling_rays]).
  - left. reflexivity.
  - right. right. left. split; reflexivity.
Defined.

Lemma setter_then_getter_round_trip_witness :
  (exists a',
    RayBundleOps.set RayBundleOps.store_int64 (Some [10; 20; 30]%Z)
      [7; 8]%Z (Some (SelIdx [2; -3]%Z)) = Ok (Some a') /\
    RayBundleOps.get (Some a') (Some (SelIdx [2; -3]%Z)) = Ok [7; 8]%Z /\
    nth_error a' 1 = Some 20%Z) /\
  RayBundleOps.set RayBundleOps.store_int64 (Some [10; 20; 30]%Z)
    [(2 ^ 63)%Z] (Some (SelIdx [0]%Z)) = Raise OverflowError.
Proof.
  split.
  - destruct (proj2 (setter_then_getter_round_trip Z RayBundleOps.store_int64
                       [10; 20; 30]%Z [2; -3]%Z [7; 8]%Z) [7; 8]%Z)
      as (a' & Hset & _ & Hget & Hrest).
    + reflexivity.
    + repeat constructor; unfold BundleSpec.valid_index; simpl; lia.
    + simpl. repeat constructor; simpl; intuition; discriminate.
    + reflexivity.
    + exists a'. split; [assumption|]. split; [assumption|].
      rewrite (Hrest 1%nat); [reflexivity|].
      simpl. intuition; discriminate.
  - apply (proj1 (setter_then_getter_round_trip Z RayBundleOps.store_int64
                    [10; 20; 30]%Z [0]%Z [(2 ^ 63)%Z])).
    reflexivity.
Defined.

Lemma flat_distances_are_never_negative_witness :
  exists params s,
    FlatGeometryManager.find_intersections Samples.plain
      Samples.tilted_frame Samples.tilted_rays GeometryManager.fresh
    = Ok (params, s) /\
    Forall (fun t => (t <? 0)%float = false) params.
Proof.
  eassert (H : FlatGeometryManager.find_intersections Samples.plain
                 Samples.tilted_frame Samples.tilted_rays
                 GeometryManager.fresh = Ok (_, _))
    by (vm_compute; reflexivity).
  do 2 eexists. split; [exact H|].
  exact (proj1 (flat_distances_are_never_negative _ _ _ _ _ _ H)).
Defined.

Lemma plates_only_remove_hits_witness :
  exists r s,
    RectPlateGM.find_intersections Samples.plain (1, 2)%float
      Samples.tilted_frame Samples.tilted_rays GeometryManager.fresh
    = Ok (r, s) /\
    Forall (fun t => (t <? 0)%float = false) r.
Proof.
  eassert (H : RectPlateGM.find_intersections Samples.plain
                 (1, 2)%float Samples.tilted_frame Samples.tilted_rays
                 GeometryManager.fresh = Ok (_, _))
    by (vm_compute; reflexivity).
  do 2 eexists. split; [exact H|].
  destruct (plates_only_remove_hits Samples.plain _ _ _ _ _
              (or_introl (ex_intro _ (1, 2)%float H)))
    as (flat & t1 & _ & _ & _ & Hnn).
  exact Hnn.
Defined.

Lemma select_rays_succeeds_on_valid_indices_only_witness :
  exists params s1,
    FlatGeometryManager.find_intersections Samples.plain
      Samples.xy_frame Samples.four_rays GeometryManager.fresh
    = Ok (params, s1) /\
    (exists s2, FlatGeometryManager.select_rays [0; -3]%Z s1 = Ok (tt, s2)) /\
    FlatGeometryManager.select_rays [4]%Z s1 = Raise IndexError.
Proof.
  eassert (H : FlatGeometryManager.find_intersections Samples.plain
                 Samples.xy_frame Samples.four_rays GeometryManager.fresh
               = Ok (_, _))
    by (vm_compute; reflexivity).
  do 2 eexists. split; [exact H|]. split.
  - apply (proj1 (select_rays_succeeds_on_valid_indices_only
                    _ _ _ _ _ _ [0; -3]%Z) H).
    repeat constructor; unfold BundleSpec.valid_index; simpl; lia.
  - apply (proj1 (select_rays_succeeds_on_valid_indices_only
                    _ _ _ _ _ _ [4]%Z) H).
    intros Hbad. inversion Hbad as [|? ? Hv _]; subst.
    unfold BundleSpec.valid_index in Hv. simpl in Hv. lia.
Defined.

Lemma flat_select_rays_cannot_be_repeated_witness :
  exists s1 s2 e,
    FlatGeometryManager.select_rays [0]%Z s1 = Ok (tt, s2) /\
    FlatGeometryManager.select_rays [1]%Z s2 = Raise e.
Proof.
  eassert (H : FlatGeometryManager.find_intersections Samples.plain
                 Samples.xy_frame Samples.four_rays GeometryManager.fresh
               = Ok (_, _))
    by (vm_compute; reflexivity).
  match type of H with
  | _ = Ok (_, ?s1) =>
      eassert (Hsel : FlatGeometryManager.select_rays [0]%Z s1 = Ok (tt, _))
        by (vm_compute; reflexivity)
  end.
  destruct (flat_select_rays_cannot_be_repeated [0]%Z [1]%Z _ _ _ Hsel)
    as (e & He).
  do 3 eexists. split; [exact Hsel | exact He].
Defined.

(** A manager that has found the intersections with the tilted plane and
    selected three rays serves both queries; after [done] it serves
    neither. *)
Lemma done_discards_the_selection_witness :
  exists s2 s3,
    (r <- FlatGeometryManager.find_intersections Samples.plain
            Samples.tilted_frame Samples.tilted_rays GeometryManager.fresh ;;
     FlatGeometryManager.select_rays [1; 0; -1]%Z (snd r)) = Ok (tt, s2) /\
    GeometryManager._idxs s2 = Some [1; 0; -1]%Z /\
    GeometryManager._global s2
    = Some [(2, 0, 3); (2, -1, 3); (2, -0.25, 4.75)]%float /\
    FlatGeometryManager.get_normals s2
    = Ok ([(-1, -0, -0); (1, 0, 0); (1, 0, 0)]%float, s2) /\
    FlatGeometryManager.get_intersection_points_global s2
    = Ok ([(2, 0, 3); (2, -1, 3); (2, -0.25, 4.75)]%float, s2) /\
    FlatDone.done (fun s => Ok (tt, s)) s2 = Ok (tt, s3) /\
    FlatGeometryManager.get_intersection_points_global s3
    = Raise AttributeError /\
    FlatGeometryManager.get_normals s3 = Raise AttributeError.
Proof.
  eassert (Hsel : (r <- FlatGeometryManager.find_intersections Samples.plain
                          Samples.tilted_frame Samples.tilted_rays
                          GeometryManager.fresh ;;
                   FlatGeometryManager.select_rays [1; 0; -1]%Z (snd r))
                  = Ok (tt, _))
    by (vm_compute; reflexivity).
  match type of Hsel with
  | _ = Ok (_, ?s2) =>
      eassert (Hdone : FlatDone.done (fun s => Ok (tt, s)) s2 = Ok (tt, _))
        by (vm_compute; reflexivity)
  end.
  destruct (done_discards_the_selection _ _ _ _ Hdone) as (Hg & Hn).
  do 2 eexists. split; [exact Hsel|].
  split; [reflexivity|]. split; [reflexivity|].
  split; [vm_compute; reflexivity|]. split; [vm_compute; reflexivity|].
  split; [exact Hdone|]. split; [exact Hg | exact Hn].
Defined.

Lemma nan_sizes_pass_validation_and_trim_nothing_witness :
  RoundPlateGM.init nan
  = Ok (RoundPlateGM.mk_plate nan GeometryManager.fresh) /\
  RoundPlateGM.outside nan (5, 5, 0, 1)%float = false /\
  (exists s,
     RoundPlateGM.find_intersections Samples.plain nan
       Samples.tilted_frame Samples.tilted_rays GeometryManager.fresh
     = Ok ([3; 2; 2; infinity; infinity; 1]%float, s)) /\
  (exists s,
     RectPlateGM.find_intersections Samples.plain (nan / 2, nan / 2)%float
       Samples.tilted_frame Samples.tilted_rays GeometryManager.fresh
     = Ok ([3; 2; 2; infinity; infinity; 1]%float, s)).
Proof.
  eassert (Hfin : FiniteFlatGM.find_intersections Samples.plain
                    Samples.tilted_frame Samples.tilted_rays
                    GeometryManager.fresh
                  = Ok ([3; 2; 2; infinity; infinity; 1]%float, _))
    by (vm_compute; reflexivity).
  destruct (proj1 nan_sizes_pass_validation_and_trim_nothing
              Samples.plain nan nan eq_refl eq_refl eq_refl)
    as (Hinit & Hout & Hfind).
  destruct (proj2 nan_sizes_pass_validation_and_trim_nothing
              Samples.plain nan nan eq_refl eq_refl)
    as (_ & _ & Hrect).
  split; [exact Hinit|]. split; [apply Hout|]. split.
  - exact (Hfind _ _ _ _ _ Hfin).
  - exact (Hrect _ _ _ _ _ Hfin).
Defined.

(** ** The finite surfaces after [select_rays] *)

Section PlateSelection.
Import GeometryManager Vec FlatSpec.
Local Open Scope float_scope.

Variable L : Lib.t.

Lemma item_zip_with {A B C} (g : A -> B -> C) (l : list A) (l' : list B)
    (i : Z) (a : A) (b : B) :
  length l' = length l -> item l i = Ok a -> item l' i = Ok b ->
  item (zip_with g l l') i = Ok (g a b).
Proof.
  intros Hlen. unfold item.
  rewrite zip_with_length by assumption. rewrite Hlen.
  destruct (norm_index (length l) i) as [j|e]; simpl; [|discriminate].
  rewrite nth_error_zip_with_gen.
  destruct (nth_error l j); [|discriminate].
  destruct (nth_error l' j); [|discriminate].
  intros Ha Hb. inversion Ha; inversion Hb; subst. reflexivity.
Qed.

Lemma take_points_nth (vs : list (vec3 float)) (ps : list float)
    (ds g : list (vec3 float)) (idxs : list Z) :
  length ps = length vs -> length ds = length vs ->
  take (points vs ps ds) idxs = Ok g ->
  forall j i v t d,
    nth_error idxs j = Some i ->
    item vs i = Ok v -> item ps i = Ok t -> item ds i = Ok d ->
    nth_error g j = Some (hit_point v t d).
Proof.
  intros Hp Hd Hg j i v t d Hj Hv Ht Hdi.
  destruct (take_nth _ _ _ j i Hg Hj) as (c & Hc & Hn).
  unfold points in Hc.
  rewrite (item_zip_with add3 vs (zip_with scale3 ps ds) i v (scale3 t d))
    in Hc.
  - inversion Hc; subst c. exact Hn.
  - rewrite zip_with_length; congruence.
  - exact Hv.
  - apply item_zip_with; congruence.
Qed.

(** The attributes a plate leaves behind are those of the finite-flat
    computation, without the local coordinates. *)
Lemma plate_state (f : frame) (b : RayBundle.t) (self s : state)
    (r : list float) :
  (exists hd, RectPlateGM.find_intersections L hd f b self = Ok (r, s)) \/
  (exists R, RoundPlateGM.find_intersections L R f b self = Ok (r, s)) ->
  exists vs ds m,
    RayBundle._vertices b = Some vs /\ RayBundle._directions b = Some ds /\
    length ds = length vs /\ Lib.inv L f = Ok m /\
    s = mk (Some f) (Some b) None
           (Some (BMask (map (fun d => 0 <? ray_dt L f d) ds)))
           (_idxs self)
           (Some (points vs (zip_with (ray_distance L f) vs ds) ds)) None.
Proof.
  intros H.
  assert (Hfin : exists p s0,
             FiniteFlatGM.find_intersections L f b self = Ok (p, s0)).
  { destruct H as [(hd & H) | (R & H)];
      [unfold RectPlateGM.find_intersections in H
      |unfold RoundPlateGM.find_intersections in H];
      destruct (FiniteFlatGM.find_intersections L f b self)
        as [[p s0]|]; try discriminate; eauto. }
  destruct Hfin as (p & s0 & Hfin).
  destruct (finite_find_intersections_inv L f b self _ _ Hfin)
    as (vs & ds & m & Hv & Hd & Hlen & Hm).
  exists vs, ds, m. repeat (split; [assumption|]).
  destruct H as [(hd & H) | (R & H)].
  - destruct (rect_find_intersections_run L hd f b self vs ds m
                Hv Hd Hlen Hm) as (s' & Hrun & _).
    revert Hrun. unfold RectPlateGM.find_intersections in *.
    rewrite (finite_find_intersections_run L f b self vs ds m Hv Hd Hlen Hm)
      in *.
    simpl in *.
    destruct (negb _); [discriminate|].
    intros _. inversion H. reflexivity.
  - unfold RoundPlateGM.find_intersections in H.
    rewrite (finite_find_intersections_run L f b self vs ds m Hv Hd Hlen Hm)
      in H.
    simpl in H.
    destruct (Lib.square L R); simpl in H; [|discriminate].
    destruct (negb _); [discriminate|].
    inversion H. reflexivity.
Qed.

End PlateSelection.

(** X22.  The plates answer the geometry queries like the infinite surface.
    Let the frame have the Z axis [(zx,zy,zz)], and let [flat] be the
    distances the infinite surface returns for the bundle.  After
    [find_intersections] of a rectangular or round plate and
    [select_rays(idxs)], [get_normals] returns [len(idxs)] columns,
    [(zx,zy,zz)] for [dt <= 0] and [(zx * -1, zy * -1, zz * -1)] for
    [dt > 0], and [get_intersection_points_global] returns for the ray
    [idxs[j]] with vertex [(v0,v1,v2)], direction [(d0,d1,d2)] and
    distance [t] in [flat] the point [(v0 + t*d0, v1 + t*d1, v2 + t*d2)],
    also when the plate's boundary test has trimmed the ray. *)
Theorem plates_report_normals_and_points
    (L : Lib.t)
    (xx yx zx ox xy yy zy oy xz yz zz oz h0 h1 h2 h3 : float)
    (b : RayBundle.t)
    (self s1 s2 : GeometryManager.state) (r : list float)
    (idxs : list Z) (u : unit) :
  let f : frame :=
    ((xx, yx, zx, ox), (xy, yy, zy, oy), (xz, yz, zz, oz), (h0, h1, h2, h3))
  in
  (exists hd, RectPlateGM.find_intersections L hd f b self = Ok (r, s1)) \/
  (exists R, RoundPlateGM.find_intersections L R f b self = Ok (r, s1)) ->
  FiniteFlatGM.select_rays idxs s1 = Ok (u, s2) ->
  exists flat t1 norms g,
    FlatGeometryManager.find_intersections L f b self = Ok (flat, t1) /\
    length r = length flat /\
    FlatGeometryManager.get_normals s2 = Ok (norms, s2) /\
    FlatGeometryManager.get_intersection_points_global s2 = Ok (g, s2) /\
    length norms = length idxs /\ length g = length idxs /\
    forall vs ds j i v0 v1 v2 t d0 d1 d2,
      RayBundle._vertices b = Some vs -> RayBundle._directions b = Some ds ->
      nth_error idxs j = Some i ->
      item vs i = Ok (v0, v1, v2) -> item flat i = Ok t ->
      item ds i = Ok (d0, d1, d2) ->
      nth_error g j
      = Some (v0 + t * d0, v1 + t * d1, v2 + t * d2)%float /\
      let dt := Lib.dot_rows L (d0, d1, d2) (zx, zy, zz) in
      exists c,
        nth_error norms j = Some c /\
        ((dt <=? 0)%float = true -> c = (zx, zy, zz)) /\
        ((0 <? dt)%float = true ->
         c = (zx * -1, zy * -1, zz * -1)%float).
Proof.
  intros f Hfind Hsel.
  destruct (plate_state L f b self s1 r Hfind)
    as (vs & ds & m & Hv & Hd & Hlen & Hm & Hs1).
  assert (Hfl : length (Vec.zip_with (FlatSpec.ray_distance L f) vs ds)
                = length vs) by (apply zip_with_length; assumption).
  assert (Hr : length r
               = length (Vec.zip_with (FlatSpec.ray_distance L f) vs ds)).
  { destruct Hfind as [(hd & H) | (R & H)].
    - destruct (rect_find_intersections_run L hd f b self vs ds m
                  Hv Hd Hlen Hm) as (s' & Hrun & _).
      rewrite Hrun in H. inversion H. apply mask_fill_length.
    - destruct (Lib.square L R) as [R2|e] eqn:HR;
        [|rewrite (round_find_intersections_raise L R e f b self vs ds m
                     Hv Hd Hlen Hm HR) in H; discriminate].
      destruct (round_find_intersections_run L R R2 f b self vs ds m
                  Hv Hd Hlen Hm HR) as (s' & Hrun & _).
      rewrite Hrun in H. inversion H. apply mask_fill_length. }
  subst s1.
  unfold FiniteFlatGM.select_rays in Hsel; simpl in Hsel.
  inv_bind Hsel. inv_bind Hsel. inversion Hsel; subst s2; clear Hsel.
  simpl in Ha. inv_bind Ha. inversion Ha; subst a; clear Ha.
  rename a1 into x. rename a0 into g.
  assert (Hlx : length x = length idxs) by (eapply take_length; eassumption).
  match goal with
  | |- context [FlatGeometryManager.get_normals ?s] =>
      destruct (get_normals_run f idxs x s eq_refl eq_refl eq_refl Hlx)
        as (norms & Hrun & Hn & Hcol)
  end.
  exists (Vec.zip_with (FlatSpec.ray_distance L f) vs ds).
  eexists. exists norms, g.
  split; [apply (flat_find_intersections_run L f b self vs ds Hv Hd Hlen)|].
  split; [exact Hr|].
  split; [exact Hrun|]. split; [reflexivity|].
  split; [exact Hn|]. split; [eapply take_length; eassumption|].
  intros vs0 ds0 j i v0 v1 v2 t d0 d1 d2 Hv0 Hd0 Hj Hvi Hti Hdi.
  assert (vs0 = vs) by congruence. assert (ds0 = ds) by congruence.
  subst vs0 ds0. split.
  - exact (take_points_nth vs _ ds g idxs Hfl Hlen Ha0 j i (v0, v1, v2) t
             (d0, d1, d2) Hj Hvi Hti Hdi).
  - intros dt.
    pose proof (selected_backside L f ds idxs x j i (d0, d1, d2) Ha1 Hj Hdi)
      as Hxj.
    rewrite (Hcol _ _ Hxj).
    change (FlatSpec.ray_dt L f (d0, d1, d2)) with dt.
    change (Vec.normal_of f) with (zx, zy, zz).
    eexists; split; [reflexivity|]. split; intros H.
    + rewrite (leb_true_ltb_false H). reflexivity.
    + rewrite H. reflexivity.
Qed.

(** On the tilted plane the 2-by-4 rectangle trims the ray [2], whose hit
    at the local point [(1.5,3)] lies outside; when the rays [2] and [1]
    are selected all the same, the point reported for the ray [2] is its
    hit with the infinite plane. *)
Lemma plates_report_normals_and_points_witness :
  exists r s1 norms g s2,
    RectPlateGM.find_intersections Samples.plain (1, 2)%float
      Samples.tilted_frame Samples.tilted_rays GeometryManager.fresh
    = Ok (r, s1) /\
    nth_error r 2 = Some infinity /\
    FiniteFlatGM.select_rays [2; 1]%Z s1 = Ok (tt, s2) /\
    FlatGeometryManager.get_normals s2 = Ok (norms, s2) /\
    FlatGeometryManager.get_intersection_points_global s2 = Ok (g, s2) /\
    nth_error g 0 = Some (2, 0.5, 6)%float /\
    nth_error g 1 = Some (2, 0, 3)%float /\
    nth_error norms 0 = Some (1, 0, 0)%float /\
    nth_error norms 1 = Some (-1, -0, -0)%float.
Proof.
  eassert (H : RectPlateGM.find_intersections Samples.plain
                 (1, 2)%float Samples.tilted_frame Samples.tilted_rays
                 GeometryManager.fresh = Ok (_, _))
    by (vm_compute; reflexivity).
  match type of H with
  | _ = Ok (_, ?s1) =>
      eassert (Hsel : FiniteFlatGM.select_rays [2; 1]%Z s1 = Ok (tt, _))
        by (vm_compute; reflexivity)
  end.
  pose proof (plates_report_normals_and_points Samples.plain
                0 0 1 2 1 0 0 (-1) 0 1 0 3 0 0 0 1
                _ _ _ _ _ _ _
                (or_introl (ex_intro _ (1, 2)%float H)) Hsel) as P.
  cbv zeta in P.
  destruct P as (flat & t1 & norms & g & Hflat & _ & Hn & Hg & _ & _ & Hcols).
  vm_compute in Hflat. inversion Hflat; subst flat t1; clear Hflat.
  do 2 eexists. exists norms, g. eexists.
  split; [exact H|]. split; [reflexivity|]. split; [exact Hsel|].
  split; [exact Hn|]. split; [exact Hg|].
  destruct (Hcols _ _ 0%nat 2%Z 4 0.5 6 2 (-1) 0 0
              eq_refl eq_refl eq_refl eq_refl eq_refl eq_refl)%float
    as (Hp0 & c0 & Hc0 & Hfront & _).
  destruct (Hcols _ _ 1%nat 1%Z 0 0 3 2 1 0 0
              eq_refl eq_refl eq_refl eq_refl eq_refl eq_refl)%float
    as (Hp1 & c1 & Hc1 & _ & Hback).
  split; [rewrite Hp0; vm_compute; reflexivity|].
  split; [rewrite Hp1; vm_compute; reflexivity|].
  split.
  - rewrite Hc0. f_equal. apply Hfront. vm_compute. reflexivity.
  - rewrite Hc1. f_equal. rewrite Hback; vm_compute; reflexivity.
Defined.
